(** * Session state machine of the Databricks RAG chat application

    A shallow embedding of [app.py].  A Streamlit script is re-executed from
    top to bottom on every user interaction; one such execution is a
    _render pass_.  The pass reads and mutates [st.session_state], reads the
    values of the widgets it renders, may call the model serving endpoint,
    and ends normally, by [st.rerun()], by [st.stop()] or by an uncaught
    exception.  All of this is made explicit below as a state monad over a
    [world] (session state plus the chronological trace of external
    effects), parameterised by the inputs of the pass. *)

From Stdlib Require Import ZArith Lia.
From stdpp Require Import base option list strings gmap pretty.

Local Open Scope Z_scope.
Local Open Scope nat_scope.

(** ** Data model *)

(** The two values the code ever stores under the ["role"] key. *)
Inductive role := user | assistant.

(** [{"role": r, "content": c}] *)
Record message := Message { msg_role : role; msg_content : string }.

(** [st.session_state]: a dictionary; every key the script uses is a field,
    [None] when the key is absent. *)
Record session_state := SessionState {
  visibility : option string;
  disabled : option bool;
  messages : option (list message);
  selected_question : option string;
  show_all_messages : option bool
}.

Definition empty_session : session_state :=
  SessionState None None None None None.

Definition set_visibility (v : option string) (s : session_state) :=
  SessionState v (disabled s) (messages s) (selected_question s) (show_all_messages s).
Definition set_disabled (v : option bool) (s : session_state) :=
  SessionState (visibility s) v (messages s) (selected_question s) (show_all_messages s).
Definition set_messages (v : option (list message)) (s : session_state) :=
  SessionState (visibility s) (disabled s) v (selected_question s) (show_all_messages s).
Definition set_selected_question (v : option string) (s : session_state) :=
  SessionState (visibility s) (disabled s) (messages s) v (show_all_messages s).
Definition set_show_all_messages (v : option bool) (s : session_state) :=
  SessionState (visibility s) (disabled s) (messages s) (selected_question s) v.

(** The buttons of the page, by their [key] (the reset button has none and
    is identified by its label). *)
Inductive button :=
| main_question (i : nat)
| use_question
| clear_question
| collapse_messages
| expand_messages
| reset_chat.

(** A Python exception, as far as the script looks at it: [str(e)]. *)
Inductive exn := Exception (str : string).

Definition str (e : exn) : string := match e with Exception s => s end.

(** Modelled from the spec: the value returned by [query_endpoint] of
    [model_serving_utils], which is not part of the sources.  Section 6 of
    the specification: the endpoint "returns either a plain text answer or a
    structured object containing at least a content text field; may
    raise/report an error".  [Malformed ty] is any other object, of Python
    type [ty], that has no [get] method. *)
Inductive response :=
| Text (s : string)
| Structured (fields : gmap string string)
| Malformed (ty : string).

Inductive endpoint_result :=
| Answers (r : response)
| Fails (e : exn).

(** What [st.context.headers] evaluates to. *)
Inductive headers_access :=
| NoHeadersAttribute
| HeadersRaise (e : exn)
| HeadersNone
| Headers (h : gmap string string).

(** Everything a render pass reads from outside the session state. *)
Record pass_input := PassInput {
  environ : gmap string string;
  context_headers : headers_access;
  clicked : button → bool;
  typed : option string;
  query_endpoint : string → list message → Z → endpoint_result
}.

(** External effects of a pass, in the order they happen. *)
Inductive event :=
| st_info (text : string)
| st_error (text : string)
| st_write (text : string)
| st_button (b : button)
| st_chat_input
| st_chat_message (r : role) (text : string)
| logging_warning (text : string)
| logger_error (text : string)
| endpoint_query (endpoint_name : string) (msgs : list message) (max_tokens : Z).

Record world := World { session : session_state; trace : list event }.

(** ** The script monad *)

(** [Rerun] and [Stop] are Streamlit's script-control exceptions; they derive
    from [BaseException], so [except Exception] does not catch them. *)
Inductive outcome (A : Type) :=
| Return (a : A)
| Raise (e : exn)
| Rerun
| Stop.
Arguments Return {A} a.
Arguments Raise {A} e.
Arguments Rerun {A}.
Arguments Stop {A}.

Definition M (A : Type) : Type := world → outcome A * world.

Definition ret {A} (a : A) : M A := λ w, (Return a, w).

Definition bind {A B} (m : M A) (k : A → M B) : M B :=
  λ w, match m w with
       | (Return a, w') => k a w'
       | (Raise e, w') => (Raise e, w')
       | (Rerun, w') => (Rerun, w')
       | (Stop, w') => (Stop, w')
       end.

Notation "'do' x <- m ; k" := (bind m (λ x, k))
  (at level 10, x name, m at level 100, k at level 200).
Notation "m ;; k" := (bind m (λ _, k))
  (at level 100, k at level 200, right associativity).

Definition raise {A} (e : exn) : M A := λ w, (Raise e, w).
Definition st_rerun {A} : M A := λ w, (Rerun, w).
Definition st_stop {A} : M A := λ w, (Stop, w).

(** [try: m except Exception as e: h e] *)
Definition try_except {A} (m : M A) (h : exn → M A) : M A :=
  λ w, match m w with
       | (Raise e, w') => h e w'
       | r => r
       end.

Definition emit (e : event) : M unit :=
  λ w, (Return tt, World (session w) (trace w ++ [e])).

Definition get_session : M session_state := λ w, (Return (session w), w).

Definition modify_session (f : session_state → session_state) : M unit :=
  λ w, (Return tt, World (f (session w)) (trace w)).

Definition AttributeError (name : string) : exn :=
  Exception ("st.session_state has no attribute " +:+ name).

(** [st.session_state.messages] *)
Definition get_messages : M (list message) :=
  do s <- get_session;
  match messages s with
  | Some l => ret l
  | None => raise (AttributeError "messages")
  end.

(** [st.session_state.messages.append(m)] *)
Definition messages_append (m : message) : M unit :=
  do l <- get_messages;
  modify_session (set_messages (Some (l ++ [m]))).

(** [st.session_state.selected_question] *)
Definition get_selected_question : M string :=
  do s <- get_session;
  match selected_question s with
  | Some q => ret q
  | None => raise (AttributeError "selected_question")
  end.

(** [del st.session_state.selected_question] *)
Definition del_selected_question : M unit :=
  do _ <- get_selected_question;
  modify_session (set_selected_question None).

(** ** The script, function by function *)

Section Script.
Variable inp : pass_input.

(** [st.button(..., key=b)]: renders the widget, true when it was clicked. *)
Definition button_pressed (b : button) : M bool :=
  emit (st_button b) ;; ret (clicked inp b).

(** [st.chat_input(...)] *)
Definition chat_input : M (option string) :=
  emit st_chat_input ;; ret (typed inp).

Definition validate_environment : M string :=
  match environ inp !! "SERVING_ENDPOINT" with
  | Some serving_endpoint =>
      if bool_decide (serving_endpoint = "") then
        emit (st_error "⚠️ SERVING_ENDPOINT environment variable is not set. Please set it in app.yaml.") ;;
        st_stop
      else ret serving_endpoint
  | None =>
      emit (st_error "⚠️ SERVING_ENDPOINT environment variable is not set. Please set it in app.yaml.") ;;
      st_stop
  end.

(** [getattr(st.context, 'headers', {}) or {}] *)
Definition read_headers : M (gmap string string) :=
  match context_headers inp with
  | NoHeadersAttribute => ret ∅
  | HeadersRaise e => raise e
  | HeadersNone => ret ∅
  | Headers h => ret h
  end.

(** The returned dictionary has the single key ['user_email']. *)
Definition get_user_info : M string :=
  try_except
    (do headers <- read_headers;
     ret (default "Not available" (headers !! "X-Forwarded-Email")))
    (λ e,
      emit (logging_warning ("Error getting user info: " +:+ str e)) ;;
      ret "Not available").

Definition initialize_session_state : M unit :=
  do s <- get_session;
  (if bool_decide (visibility s = None) then
     modify_session (set_visibility (Some "visible")) ;;
     modify_session (set_disabled (Some false))
   else ret tt) ;;
  do s <- get_session;
  if bool_decide (messages s = None) then
    modify_session (set_messages (Some []))
  else ret tt.

Definition get_suggested_questions : list string :=
  [ "What is Lakeflow and how does it work?";
    "How can I ingest data into Databricks using Lakeflow?";
    "What source systems are supported by Lakeflow?";
    "Explain the benefits of using Databricks for data processing" ].

Definition handle_question_selection : M (option string) :=
  do s <- get_session;
  match selected_question s with
  | Some q =>
      emit (st_info ("📝 Selected question: " +:+ q)) ;;
      do use <- button_pressed use_question;
      if use then
        do prompt <- get_selected_question;
        del_selected_question ;;
        ret (Some prompt)
      else
        do clear <- button_pressed clear_question;
        if clear then
          del_selected_question ;;
          st_rerun
        else ret None
  | None => chat_input
  end.

(** [response if isinstance(response, str) else response.get("content", "")] *)
Definition normalize (r : response) : M string :=
  match r with
  | Text s => ret s
  | Structured fields => ret (default "" (fields !! "content"))
  | Malformed ty =>
      raise (Exception ("'" +:+ ty +:+ "' object has no attribute 'get'"))
  end.

(** The call [query_endpoint(endpoint_name=..., messages=..., max_tokens=...)] *)
Definition call_query_endpoint
    (endpoint_name : string) (msgs : list message) (max_tokens : Z) : M response :=
  emit (endpoint_query endpoint_name msgs max_tokens) ;;
  match query_endpoint inp endpoint_name msgs max_tokens with
  | Answers r => ret r
  | Fails e => raise e
  end.

(** Lines 919-937 of [render_chat_interface]: the new message.  [if prompt:]
    is false for [None] and for the empty string. *)
Definition process_prompt (serving_endpoint : string) (prompt : option string) : M unit :=
  match prompt with
  | None => ret tt
  | Some p =>
      if bool_decide (p = "") then ret tt
      else
        messages_append (Message user p) ;;
        try_except
          (do msgs <- get_messages;
           do response <- call_query_endpoint serving_endpoint msgs 400%Z;
           do assistant_response <- normalize response;
           messages_append (Message assistant assistant_response) ;;
           st_rerun)
          (λ e,
            let error_message := "Error getting response from endpoint: " +:+ str e in
            emit (logger_error error_message) ;;
            emit (st_error error_message))
  end.

(** [for message in messages_to_show: with st.chat_message(...): st.markdown(...)] *)
Fixpoint show_messages (l : list message) : M unit :=
  match l with
  | [] => ret tt
  | m :: l' => emit (st_chat_message (msg_role m) (msg_content m)) ;; show_messages l'
  end.

(** [l[-6:]] *)
Definition last_six (l : list message) : list message := drop (length l - 6) l.

Definition latest_banner (hidden : nat) : string :=
  "Showing latest 3 Q&A pairs. Click 'Show All History' to see "
    +:+ pretty hidden +:+ " earlier messages.".

Definition recent_banner (hidden : nat) : string :=
  "Showing recent messages. Click 'Show All History' to see "
    +:+ pretty hidden +:+ " earlier messages.".

(** Lines 958-966: which messages to display, and the [st.info] banners. *)
Definition messages_to_show (l : list message) (show_all : bool)
    : list message * list string :=
  let total_messages := length l in
  if show_all || bool_decide (total_messages ≤ 6) then
    (l, if negb show_all && bool_decide (6 < total_messages)
        then [recent_banner (total_messages - 6)] else [])
  else
    (last_six l, [latest_banner (total_messages - 6)]).

Definition start_conversation : string :=
  "💬 Start a conversation by selecting a question above or typing your own message below".

Fixpoint show_infos (l : list string) : M unit :=
  match l with
  | [] => ret tt
  | t :: l' => emit (st_info t) ;; show_infos l'
  end.

(** Lines 939-974 of [render_chat_interface]: the chat history. *)
Definition display_history : M unit :=
  do l <- get_messages;
  match l with
  | _ :: _ =>
      let total_messages := length l in
      do s <- get_session;
      let show_all := default false (show_all_messages s) in
      (if bool_decide (6 < total_messages) then
         if show_all then
           do c <- button_pressed collapse_messages;
           if c then
             modify_session (set_show_all_messages (Some false)) ;;
             st_rerun
           else ret tt
         else
           do e <- button_pressed expand_messages;
           if e then
             modify_session (set_show_all_messages (Some true)) ;;
             st_rerun
           else ret tt
       else ret tt) ;;
      do l <- get_messages;
      let shown := messages_to_show l show_all in
      show_infos shown.2 ;;
      show_messages shown.1
  | [] =>
      emit (st_info "💬 Start a conversation by selecting a question above or typing your own message below")
  end.

Definition render_chat_interface (serving_endpoint : string) : M unit :=
  do prompt <- handle_question_selection;
  process_prompt serving_endpoint prompt ;;
  display_history.

Definition render_sidebar (serving_endpoint user_email : string) : M unit :=
  do l <- get_messages;
  emit (st_write ("**Messages:** " +:+ pretty (length l))) ;;
  emit (st_write "**Status:** Active") ;;
  emit (st_write ("📧 " +:+ user_email)) ;;
  emit (st_write ("Endpoint: " +:+ serving_endpoint)).

(** Lines 1065-1066: [st.session_state.selected_question = question; st.rerun()] *)
Definition stage (question : string) : M unit :=
  modify_session (set_selected_question (Some question)) ;;
  st_rerun.

(** [for i, question in enumerate(questions, 1): if st.button(...): ...] *)
Fixpoint suggested_question_buttons (i : nat) (questions : list string) : M unit :=
  match questions with
  | [] => ret tt
  | question :: rest =>
      do b <- button_pressed (main_question i);
      (if b then stage question else ret tt) ;;
      suggested_question_buttons (S i) rest
  end.

Definition render_main_content (serving_endpoint : string) : M unit :=
  suggested_question_buttons 1 get_suggested_questions ;;
  do r <- button_pressed reset_chat;
  (if r then
     modify_session (set_messages (Some [])) ;;
     st_rerun
   else ret tt) ;;
  render_chat_interface serving_endpoint.

(** [setup_page_config] and [apply_modern_styling] only emit static page
    configuration and style sheets. *)
Definition main : M unit :=
  do serving_endpoint <- validate_environment;
  do user_email <- get_user_info;
  initialize_session_state ;;
  render_main_content serving_endpoint ;;
  render_sidebar serving_endpoint user_email.

End Script.

(** ** Running passes *)

(** The widget state of the pass that follows [st.rerun()]: nothing is
    clicked and nothing is typed. *)
Definition idle (inp : pass_input) : pass_input :=
  PassInput (environ inp) (context_headers inp) (λ _, false) None (query_endpoint inp).

(** The session after one user interaction: the pass it triggers and, when
    that pass ends in [st.rerun()], the pass that follows. *)
Definition interact (inp : pass_input) (s : session_state) : session_state :=
  match main inp (World s []) with
  | (Rerun, w) => session (main (idle inp) (World (session w) [])).2
  | (_, w) => session w
  end.

Definition button_eqb (a b : button) : bool :=
  match a, b with
  | main_question i, main_question j => Nat.eqb i j
  | use_question, use_question => true
  | clear_question, clear_question => true
  | collapse_messages, collapse_messages => true
  | expand_messages, expand_messages => true
  | reset_chat, reset_chat => true
  | _, _ => false
  end.

(** The user types [text] into the chat input; the endpoint, if called,
    gives [result]. *)
Definition typing (base : pass_input) (text : string) (result : endpoint_result) : pass_input :=
  PassInput (environ base) (context_headers base) (λ _, false) (Some text) (λ _ _ _, result).

(** The user clicks the button [b]. *)
Definition clicking (base : pass_input) (b : button) (result : endpoint_result) : pass_input :=
  PassInput (environ base) (context_headers base) (button_eqb b) None (λ _ _ _, result).

(** A turn of the conversation: a prompt, typed or picked from the suggested
    questions (button [i], counted from 1) and confirmed, and what the
    endpoint does with it. *)
Inductive prompt_source := Typed (text : string) | Suggested (i : nat).

Record turn := Turn { source : prompt_source; result : endpoint_result }.

Definition play_turn (base : pass_input) (t : turn) (s : session_state) : session_state :=
  match source t with
  | Typed text => interact (typing base text (result t)) s
  | Suggested i =>
      interact (clicking base use_question (result t))
        (interact (clicking base (main_question i) (result t)) s)
  end.

Definition play (base : pass_input) (ts : list turn) (s : session_state) : session_state :=
  foldl (λ s t, play_turn base t s) s ts.

(** The prompt of a turn, when it has one. *)
Definition prompt_of (t : turn) : option string :=
  match source t with
  | Typed text => if bool_decide (text = "") then None else Some text
  | Suggested i =>
      match i with
      | 0 => None
      | S j => get_suggested_questions !! j
      end
  end.

(** The text [normalize] extracts from a response, when it does not raise. *)
Definition response_text (r : response) : option string :=
  match r with
  | Text s => Some s
  | Structured fields => Some (default "" (fields !! "content"))
  | Malformed _ => None
  end.

Definition answer_of (r : endpoint_result) : option string :=
  match r with
  | Answers r => response_text r
  | Fails _ => None
  end.

Definition succeeds (t : turn) : Prop := is_Some (answer_of (result t)).

(** What a turn adds to the message log. *)
Definition turn_messages (t : turn) : list message :=
  match prompt_of t with
  | None => []
  | Some p =>
      Message user p ::
      match answer_of (result t) with
      | Some a => [Message assistant a]
      | None => []
      end
  end.

Definition transcript (ts : list turn) : list message :=
  concat (turn_messages <$> ts).

(** Roles alternate, starting with [user]. *)
Fixpoint alternating_from (r : role) (l : list message) : Prop :=
  match l with
  | [] => True
  | m :: l' =>
      msg_role m = r ∧
      alternating_from (match r with user => assistant | assistant => user end) l'
  end.

Definition alternating (l : list message) : Prop := alternating_from user l.

(** The endpoint calls in a trace. *)
Fixpoint queries (evs : list event) : list event :=
  match evs with
  | [] => []
  | endpoint_query n l k :: evs' => endpoint_query n l k :: queries evs'
  | _ :: evs' => queries evs'
  end.

(** [.get('show_all_messages', False)]: the show-all toggle of the session. *)
Definition show_all_history (s : session_state) : bool :=
  default false (show_all_messages s).

Definition chat_event (m : message) : event :=
  st_chat_message (msg_role m) (msg_content m).

(** The message log of a session; a session that has not been rendered yet
    has none, and [initialize_session_state] starts it empty. *)
Definition message_log (s : session_state) : list message :=
  default [] (messages s).

(** A turn that sends a prompt and gets an answer. *)
Definition answered (t : turn) : Prop := is_Some (prompt_of t) ∧ succeeds t.

(** The session part of [initialize_session_state]. *)
Definition initialized (s : session_state) : session_state :=
  let s1 :=
    match visibility s with
    | None => set_disabled (Some false) (set_visibility (Some "visible") s)
    | Some _ => s
    end in
  match messages s1 with
  | None => set_messages (Some []) s1
  | Some _ => s1
  end.

(** The e-mail address [get_user_info] ends up with. *)
Definition user_email (h : headers_access) : string :=
  match h with
  | Headers h => default "Not available" (h !! "X-Forwarded-Email")
  | _ => "Not available"
  end.

(** The events of rendering the suggestion buttons [i .. i+n-1]. *)
Definition question_buttons (i n : nat) : list event :=
  (λ j, st_button (main_question j)) <$> seq i n.

(** The same pass with [text] submitted through the chat input. *)
Definition with_typed (text : option string) (inp : pass_input) : pass_input :=
  PassInput (environ inp) (context_headers inp) (clicked inp) text (query_endpoint inp).

(** The toggle button [display_history] renders above a log of [n] messages. *)
Definition history_controls (n : nat) (show_all : bool) : list event :=
  if bool_decide (6 < n) then
    [st_button (if show_all then collapse_messages else expand_messages)]
  else [].

(** ** Sample inputs *)

Definition sample_base : pass_input :=
  PassInput {[ "SERVING_ENDPOINT" := "rag-endpoint" ]} HeadersNone
    (λ _, false) None (λ _ _ _, Fails (Exception "unreachable")).

Definition sample_turns : list turn :=
  [ Turn (Typed "What is Lakeflow?") (Answers (Text "A managed ingestion service."));
    Turn (Suggested 3) (Answers (Structured {[ "content" := "Many." ]})) ].

Definition failing_turn : turn :=
  Turn (Typed "And then?") (Fails (Exception "503 Service Unavailable")).

(** A session whose log was started and is still empty. *)
Definition fresh_session : session_state := set_messages (Some []) empty_session.

(** Three full exchanges and the start of a fourth. *)
Definition long_log : list message :=
  [ Message user "q1"; Message assistant "a1";
    Message user "q2"; Message assistant "a2";
    Message user "q3"; Message assistant "a3";
    Message user "q4"; Message assistant "a4" ].

(** A session with history in which the user asked for the whole history. *)
Definition expanded_session : session_state :=
  set_show_all_messages (Some true) (set_messages (Some long_log) empty_session).

Definition short_log : list message := take 5 long_log.

Definition seven_messages : list message := take 7 long_log.

(** ** Vocabulary for whole passes *)

(** Every assistant entry directly follows a user entry ([after_user] tells
    whether the entry before [l] is a user entry). *)
Fixpoint paired_from (after_user : bool) (l : list message) : Prop :=
  match l with
  | [] => True
  | m :: l' =>
      match msg_role m with
      | user => paired_from true l'
      | assistant => after_user = true ∧ paired_from false l'
      end
  end.

Definition paired (l : list message) : Prop := paired_from false l.

(** What one pass can do to the message log [l], with the endpoint calls it
    makes: nothing, empty the log, append a question whose call fails, or
    append a question and its answer. *)
Inductive pass_effect (ep : string) (l : list message)
  : list message → list event → Prop :=
| effect_none : pass_effect ep l l []
| effect_cleared : pass_effect ep l [] []
| effect_question (p : string) :
    p ≠ "" →
    pass_effect ep l (l ++ [Message user p])
      [endpoint_query ep (l ++ [Message user p]) 400%Z]
| effect_exchange (p a : string) :
    p ≠ "" →
    pass_effect ep l (l ++ [Message user p; Message assistant a])
      [endpoint_query ep (l ++ [Message user p]) 400%Z].

(** The staged question, when there is one, is one of the suggestions. *)
Definition staged_suggestion (s : session_state) : Prop :=
  match selected_question s with
  | None => True
  | Some q => q ∈ get_suggested_questions
  end.

(** The session after a series of user interactions. *)
Definition interactions (inps : list pass_input) (s : session_state) : session_state :=
  foldl (λ s inp, interact inp s) s inps.

(** The chat messages a trace displays, in order. *)
Fixpoint rendered (evs : list event) : list message :=
  match evs with
  | [] => []
  | st_chat_message r text :: evs' => Message r text :: rendered evs'
  | _ :: evs' => rendered evs'
  end.

(** The texts a trace shows with [st.error]. *)
Fixpoint errors_shown (evs : list event) : list string :=
  match evs with
  | [] => []
  | st_error text :: evs' => text :: errors_shown evs'
  | _ :: evs' => errors_shown evs'
  end.

(** The texts a trace logs with [logger.error]. *)
Fixpoint errors_logged (evs : list event) : list string :=
  match evs with
  | [] => []
  | logger_error text :: evs' => text :: errors_logged evs'
  | _ :: evs' => errors_logged evs'
  end.

(** The buttons a trace renders. *)
Fixpoint buttons (evs : list event) : list button :=
  match evs with
  | [] => []
  | st_button b :: evs' => b :: buttons evs'
  | _ :: evs' => buttons evs'
  end.

#[global] Instance role_eq_dec : EqDecision role.
Proof. solve_decision. Defined.

(** The number of entries of a role in a log. *)
Definition count_role (r : role) (l : list message) : nat :=
  length (filter (λ m, msg_role m = r) l).

(** The turns of a conversation that get an answer. *)
Definition answered_turns (ts : list turn) : nat :=
  length (filter (λ t, is_Some (answer_of (result t))) ts).

(** The exception a failing call ends in: the one the endpoint raises, or the
    [AttributeError] of calling [get] on a response that has none. *)
Definition error_of (r : endpoint_result) : option exn :=
  match r with
  | Fails e => Some e
  | Answers (Malformed ty) =>
      Some (Exception ("'" +:+ ty +:+ "' object has no attribute 'get'"))
  | Answers _ => None
  end.

(** A pass in which the user clicks the button that shows the whole history. *)
Definition expand_click : pass_input :=
  clicking sample_base expand_messages (Answers (Text "unused")).

(** A pass in which the user clicks the button that shows recent messages only. *)
Definition collapse_click : pass_input :=
  clicking sample_base collapse_messages (Answers (Text "unused")).

(** A session with eight messages and the show-all toggle off. *)
Definition collapsed_session : session_state :=
  set_messages (Some long_log) empty_session.

(** The four lines the sidebar writes. *)
Definition sidebar_lines (n : nat) (email ep : string) : list event :=
  [ st_write ("**Messages:** " +:+ pretty n);
    st_write "**Status:** Active";
    st_write ("📧 " +:+ email);
    st_write ("Endpoint: " +:+ ep) ].

(** A request that carries the user's e-mail address. *)
Definition signed_in : pass_input :=
  PassInput {[ "SERVING_ENDPOINT" := "rag-endpoint" ]}
    (Headers {[ "X-Forwarded-Email" := "ada@example.com" ]})
    (λ _, false) (Some "And then?") (λ _ _ _, Fails (Exception "timeout")).

(** A deployment without the endpoint variable. *)
Definition unconfigured : pass_input :=
  PassInput ∅ HeadersNone (λ _, false) (Some "hello") (λ _ _ _, Answers (Text "hi")).

(** A session in the middle of a conversation, with a question staged. *)
Definition busy_session : session_state :=
  set_selected_question (Some "What is Lakeflow and how does it work?")
    expanded_session.

(** A mixed series of interactions: a typed question that fails, a staged
    question, a reset, the confirmation, a toggle click and an unconfigured
    pass. *)
Definition sample_interactions : list pass_input :=
  [ typing sample_base "first" (Fails (Exception "timeout"));
    clicking sample_base (main_question 2) (Answers (Text "unused"));
    clicking sample_base reset_chat (Answers (Text "unused"));
    clicking sample_base use_question (Answers (Text "By connectors."));
    clicking sample_base expand_messages (Answers (Text "unused"));
    unconfigured ].

(** Turns of which the second fails. *)
Definition mixed_turns : list turn :=
  [ Turn (Typed "one") (Answers (Text "1"));
    Turn (Typed "two") (Fails (Exception "timeout"));
    Turn (Typed "two") (Answers (Text "2")) ].

(** A pass in which the user clicks the second and the fourth suggestion,
    the reset button and the confirm button, and types a message. *)
Definition frantic : pass_input :=
  PassInput {[ "SERVING_ENDPOINT" := "rag-endpoint" ]} HeadersNone
    (λ b, match b with
          | main_question 2 | main_question 4 | reset_chat | use_question => true
          | _ => false
          end)
    (Some "typed too") (λ _ _ _, Answers (Text "unused")).

(** A pass in which the user clicks reset and confirm and types a message. *)
Definition reset_and_prompt : pass_input :=
  PassInput {[ "SERVING_ENDPOINT" := "rag-endpoint" ]} HeadersNone
    (λ b, match b with reset_chat | use_question => true | _ => false end)
    (Some "typed too") (λ _ _ _, Answers (Text "unused")).

(** * Properties *)

Create HintDb script.
#[local] Hint Unfold ret bind raise st_rerun st_stop try_except emit get_session
  modify_session get_messages messages_append get_selected_question
  del_selected_question button_pressed chat_input call_query_endpoint normalize
  stage set_visibility set_disabled set_messages set_selected_question
  set_show_all_messages : script.

Ltac expose_session s :=
  destruct s as [? ? ? ? ?];
  cbn [visibility disabled messages selected_question show_all_messages] in *;
  simplify_eq.

Ltac run :=
  repeat first
    [ progress autounfold with script
    | progress cbn [session trace visibility disabled messages selected_question
                    show_all_messages fst snd default from_option id str
                    environ context_headers clicked typed query_endpoint]
    | match goal with
      | H : clicked _ _ = _ |- _ => rewrite H
      | H : typed _ = _ |- _ => rewrite H
      | H : query_endpoint _ _ _ _ = _ |- _ => rewrite H
      | H : ?p ≠ "" |- context [bool_decide (?p = "")] =>
          rewrite (bool_decide_eq_false_2 _ H)
      end ].

(** ** Equations of the script's parts *)

Lemma queries_app (a b : list event) : queries (a ++ b) = queries a ++ queries b.
Proof.
  induction a as [|e a IH]; [reflexivity|].
  destruct e; cbn; rewrite ?IH; reflexivity.
Qed.

Lemma show_messages_run l s t :
  show_messages l (World s t) = (Return tt, World s (t ++ (chat_event <$> l))).
Proof.
  revert t. induction l as [|m l IH]; intros t; cbn [show_messages fmap list_fmap].
  - run. by rewrite app_nil_r.
  - run. rewrite IH. by rewrite <- app_assoc.
Qed.

Lemma show_infos_run l s t :
  show_infos l (World s t) = (Return tt, World s (t ++ (st_info <$> l))).
Proof.
  revert t. induction l as [|m l IH]; intros t; cbn [show_infos fmap list_fmap].
  - run. by rewrite app_nil_r.
  - run. rewrite IH. by rewrite <- app_assoc.
Qed.

Lemma handle_question_selection_run inp s t :
  handle_question_selection inp (World s t) =
  match selected_question s with
  | Some q =>
      let t1 := t ++ [st_info ("📝 Selected question: " +:+ q); st_button use_question] in
      if clicked inp use_question then
        (Return (Some q), World (set_selected_question None s) t1)
      else if clicked inp clear_question then
        (Rerun, World (set_selected_question None s) (t1 ++ [st_button clear_question]))
      else (Return None, World s (t1 ++ [st_button clear_question]))
  | None => (Return (typed inp), World s (t ++ [st_chat_input]))
  end.
Proof.
  expose_session s. unfold handle_question_selection. run.
  destruct selected_question0 as [q|]; run; [|reflexivity].
  rewrite <- app_assoc. cbn [app].
  destruct (clicked inp use_question); run; [reflexivity|].
  destruct (clicked inp clear_question); run; rewrite <- app_assoc; reflexivity.
Qed.

Lemma process_prompt_run inp ep p s t l :
  messages s = Some l → p ≠ "" →
  process_prompt inp ep (Some p) (World s t) =
  let sent := l ++ [Message user p] in
  let t1 := t ++ [endpoint_query ep sent 400%Z] in
  let failed (e : exn) :=
    let error_message := "Error getting response from endpoint: " +:+ str e in
    (Return tt, World (set_messages (Some sent) s)
                  (t1 ++ [logger_error error_message; st_error error_message])) in
  match query_endpoint inp ep sent 400%Z with
  | Answers (Text a) =>
      (Rerun, World (set_messages (Some (sent ++ [Message assistant a])) s) t1)
  | Answers (Structured fields) =>
      (Rerun, World (set_messages
                       (Some (sent ++ [Message assistant (default "" (fields !! "content"))])) s) t1)
  | Answers (Malformed ty) =>
      failed (Exception ("'" +:+ ty +:+ "' object has no attribute 'get'"))
  | Fails e => failed e
  end.
Proof.
  intros Hl Hp. expose_session s. unfold process_prompt. run.
  destruct (query_endpoint inp ep _ _) as [[a|fields|ty]|e]; run;
    rewrite <- ?app_assoc; reflexivity.
Qed.

Lemma process_prompt_skip inp ep prompt w :
  prompt = None ∨ prompt = Some "" →
  process_prompt inp ep prompt w = (Return tt, w).
Proof. intros [->| ->]; reflexivity. Qed.


Lemma display_history_run inp s t l :
  messages s = Some l →
  display_history inp (World s t) =
  let show_all := show_all_history s in
  let shown := messages_to_show l show_all in
  let rendered t1 :=
    (Return tt, World s (t1 ++ (st_info <$> shown.2) ++ (chat_event <$> shown.1))) in
  match l with
  | [] => (Return tt, World s (t ++ [st_info start_conversation]))
  | _ :: _ =>
      if bool_decide (6 < length l) then
        if show_all then
          if clicked inp collapse_messages then
            (Rerun, World (set_show_all_messages (Some false) s)
                      (t ++ [st_button collapse_messages]))
          else rendered (t ++ [st_button collapse_messages])
        else
          if clicked inp expand_messages then
            (Rerun, World (set_show_all_messages (Some true) s)
                      (t ++ [st_button expand_messages]))
          else rendered (t ++ [st_button expand_messages])
      else rendered t
  end.
Proof.
  intros Hl. expose_session s. unfold display_history, show_all_history. run.
  destruct l as [|m l]; [reflexivity|].
  case_bool_decide; destruct show_all_messages0 as [[]|]; run;
    repeat match goal with
           | |- context [clicked inp ?x] => destruct (clicked inp x)
           end; run;
    rewrite ?show_infos_run; run; rewrite ?show_messages_run;
    rewrite <- ?app_assoc; reflexivity.
Qed.

Lemma rendered_events (a : list string) (b : list message) :
  queries ((st_info <$> a) ++ (chat_event <$> b)) = [] ∧
  st_chat_input ∉ ((st_info <$> a) ++ (chat_event <$> b)).
Proof.
  split.
  - rewrite queries_app.
    assert (queries (st_info <$> a) = []) as -> by (induction a; auto).
    induction b; auto.
  - rewrite not_elem_of_app, !list_elem_of_fmap.
    split; intros [? [? ?]]; discriminate.
Qed.

Ltac absent :=
  repeat first
    [ assumption
    | apply not_elem_of_nil
    | rewrite not_elem_of_cons; split; [discriminate|]
    | rewrite not_elem_of_app; split ].

(** The chat history display leaves the message log and the staged question
    alone, calls no endpoint and offers no chat input. *)
Lemma display_history_session inp s t l :
  messages s = Some l →
  ∃ o s' evs,
    display_history inp (World s t) = (o, World s' (t ++ evs)) ∧
    (o = Return tt ∨ o = Rerun) ∧
    messages s' = Some l ∧
    selected_question s' = selected_question s ∧
    queries evs = [] ∧ (st_chat_input ∉ evs) ∧
    (clicked inp collapse_messages = false → clicked inp expand_messages = false →
     o = Return tt ∧ s' = s).
Proof.
  intros Hl. rewrite (display_history_run _ _ _ _ Hl). cbn zeta.
  set (shown := messages_to_show l (show_all_history s)).
  destruct (rendered_events shown.2 shown.1) as [Hq Hn].
  destruct l as [|m l].
  { eexists _, _, _. split; [reflexivity|]. repeat split; auto. absent. }
  case_bool_decide; [destruct (show_all_history s)|].
  - destruct (clicked inp collapse_messages) eqn:Hc.
    + eexists _, _, _. split; [reflexivity|].
      repeat split; auto; [absent | congruence | congruence].
    + eexists _, _, _. rewrite <- app_assoc. split; [reflexivity|].
      repeat split; auto. absent.
  - destruct (clicked inp expand_messages) eqn:Hc.
    + eexists _, _, _. split; [reflexivity|].
      repeat split; auto; [absent | congruence | congruence].
    + eexists _, _, _. rewrite <- app_assoc. split; [reflexivity|].
      repeat split; auto. absent.
  - eexists _, _, _. split; [reflexivity|]. repeat split; auto.
Qed.

Lemma render_chat_interface_unfold inp ep w :
  render_chat_interface inp ep w =
  match handle_question_selection inp w with
  | (Return prompt, w1) =>
      match process_prompt inp ep prompt w1 with
      | (Return _, w2) => display_history inp w2
      | (Raise e, w2) => (Raise e, w2)
      | (Rerun, w2) => (Rerun, w2)
      | (Stop, w2) => (Stop, w2)
      end
  | (Raise e, w1) => (Raise e, w1)
  | (Rerun, w1) => (Rerun, w1)
  | (Stop, w1) => (Stop, w1)
  end.
Proof.
  unfold render_chat_interface, bind.
  destruct (handle_question_selection inp w) as [[prompt|e| |] w1]; reflexivity.
Qed.

(** What resolving the prompt does to the session: nothing, or it clears the
    staged question. *)
Lemma handle_question_selection_prompt inp s t p :
  (handle_question_selection inp (World s t)).1 = Return (Some p) →
  ∃ evs,
    handle_question_selection inp (World s t) =
      (Return (Some p), World (set_selected_question None s) (t ++ evs)) ∧
    queries evs = [] ∧
    (selected_question s = Some p ∧ clicked inp use_question = true ∧ st_chat_input ∉ evs
     ∨ selected_question s = None ∧ typed inp = Some p).
Proof.
  rewrite handle_question_selection_run. expose_session s.
  destruct selected_question0 as [q|]; cbn zeta.
  - destruct (clicked inp use_question); [|destruct (clicked inp clear_question)];
      cbn [fst]; intros; simplify_eq.
    eexists. split; [reflexivity|]. split; [reflexivity|]. left.
    repeat split. absent.
  - cbn [fst]. intros Ht. injection Ht as Ht. rewrite Ht.
    eexists. split; [reflexivity|]. split; [reflexivity|]. right. by split.
Qed.

Lemma render_chat_interface_success inp ep s t l p a :
  messages s = Some l →
  (handle_question_selection inp (World s t)).1 = Return (Some p) →
  p ≠ "" →
  answer_of (query_endpoint inp ep (l ++ [Message user p]) 400%Z) = Some a →
  render_chat_interface inp ep (World s t) =
    (Rerun,
     World (set_messages (Some (l ++ [Message user p; Message assistant a]))
              (set_selected_question None s))
       (trace (handle_question_selection inp (World s t)).2
          ++ [endpoint_query ep (l ++ [Message user p]) 400%Z])).
Proof.
  intros Hl Hp Hne Ha.
  destruct (handle_question_selection_prompt _ _ _ _ Hp) as (evs & Hh & Hq & _).
  rewrite render_chat_interface_unfold, Hh.
  rewrite (process_prompt_run _ _ _ _ _ l); [|by expose_session s|done].
  cbn zeta.
  destruct (query_endpoint inp ep _ _) as [[b|fields|ty]|e]; cbn in Ha; simplify_eq.
  all: cbn [snd trace]; rewrite <- (app_assoc l); expose_session s; reflexivity.
Qed.

Lemma render_chat_interface_failure inp ep s t l p :
  messages s = Some l →
  (handle_question_selection inp (World s t)).1 = Return (Some p) →
  p ≠ "" →
  answer_of (query_endpoint inp ep (l ++ [Message user p]) 400%Z) = None →
  ∃ o s' error_message evs,
    render_chat_interface inp ep (World s t) =
      (o, World s'
            (trace (handle_question_selection inp (World s t)).2
               ++ [endpoint_query ep (l ++ [Message user p]) 400%Z;
                   logger_error error_message; st_error error_message]
               ++ evs)) ∧
    (o = Return tt ∨ o = Rerun) ∧
    messages s' = Some (l ++ [Message user p]) ∧
    selected_question s' = None ∧
    queries evs = [] ∧ (st_chat_input ∉ evs) ∧
    (clicked inp collapse_messages = false → clicked inp expand_messages = false →
     o = Return tt ∧
     s' = set_messages (Some (l ++ [Message user p])) (set_selected_question None s)).
Proof.
  intros Hl Hp Hne Ha.
  destruct (handle_question_selection_prompt _ _ _ _ Hp) as (evs & Hh & Hq & _).
  rewrite render_chat_interface_unfold, Hh.
  rewrite (process_prompt_run _ _ _ _ _ l); [|by expose_session s|done].
  cbn zeta.
  destruct (query_endpoint inp ep _ _) as [[b|fields|ty]|e]; cbn in Ha; simplify_eq.
  all: match goal with
       | |- context [display_history ?i (World ?s1 ?t1)] =>
           destruct (display_history_session i s1 t1 (l ++ [Message user p]))
             as (o & s' & evs' & -> & Ho & Hm & Hs & Hq' & Hn & Hidle);
           [by expose_session s|]
       end.
  all: eexists o, s', _, evs';
    (split; [do 2 f_equal; cbn [snd trace]; rewrite <- !app_assoc; reflexivity|]);
    split_and!; auto.
Qed.

(** Every way the pass can resolve its prompt. *)
Lemma handle_question_selection_cases inp s t :
  ∃ o s1 evs,
    handle_question_selection inp (World s t) = (o, World s1 (t ++ evs)) ∧
    messages s1 = messages s ∧
    queries evs = [] ∧
    (selected_question s ≠ None → st_chat_input ∉ evs) ∧
    (o = Rerun ∧ selected_question s1 = None
     ∨ o = Return None ∧ s1 = s
     ∨ ∃ p, o = Return (Some p) ∧ s1 = set_selected_question None s ∧
            (selected_question s = Some p ∨
             selected_question s = None ∧ typed inp = Some p)).
Proof.
  rewrite handle_question_selection_run.
  destruct (selected_question s) as [q|] eqn:Hs; cbn zeta.
  - destruct (clicked inp use_question); [|destruct (clicked inp clear_question)];
      rewrite <- ?app_assoc; eexists _, _, _; (split; [reflexivity|]);
      split_and!; auto; try (intros _; absent).
    right; right. eauto.
  - eexists _, _, _. split; [reflexivity|]. split_and!; auto.
    destruct (typed inp) as [p|]; [|by right; left].
    right; right. exists p. split_and!; auto. by expose_session s.
Qed.

(** One pass appends nothing, one user message, or a user message and its
    answer; it calls the endpoint exactly when it appends. *)
Lemma render_chat_interface_adds inp ep s t l :
  messages s = Some l →
  ∃ o s' evs added,
    render_chat_interface inp ep (World s t) = (o, World s' (t ++ evs)) ∧
    (o = Return tt ∨ o = Rerun) ∧
    messages s' = Some (l ++ added) ∧
    (selected_question s ≠ None → st_chat_input ∉ evs) ∧
    (added = [] ∧ queries evs = []
     ∨ ∃ p, p ≠ "" ∧
         (handle_question_selection inp (World s t)).1 = Return (Some p) ∧
         queries evs = [endpoint_query ep (l ++ [Message user p]) 400%Z] ∧
         (added = [Message user p] ∨ ∃ a, added = [Message user p; Message assistant a])).
Proof.
  intros Hl.
  destruct (handle_question_selection_cases inp s t)
    as (o1 & s1 & evs1 & Hh & Hm1 & Hq1 & Hn1 & Hcase).
  set (goal := ∃ o s' evs added, _).
  assert (Hshow : ∀ prompt,
    o1 = Return prompt → prompt = None ∨ prompt = Some "" → goal).
  { intros prompt -> Hp. unfold goal.
    rewrite render_chat_interface_unfold, Hh, (process_prompt_skip _ _ _ _ Hp).
    destruct (display_history_session inp s1 (t ++ evs1) l)
      as (o & s' & evs & -> & Ho & Hm & _ & Hq & Hn & _); [congruence|].
    exists o, s', (evs1 ++ evs), []. rewrite app_assoc, app_nil_r.
    split_and!; auto; [intros; absent; auto | left; by rewrite queries_app, Hq1, Hq]. }
  unfold goal.
  destruct Hcase as [[-> Hs1]|[[-> ->]|(p & -> & -> & Hsrc)]].
  - rewrite render_chat_interface_unfold, Hh.
    exists Rerun, s1, evs1, []. rewrite app_nil_r. split_and!; auto; congruence.
  - apply (Hshow None); auto.
  - destruct (decide (p = "")) as [->|Hne].
    { apply (Hshow (Some "")); auto. }
    assert (Hp : (handle_question_selection inp (World s t)).1 = Return (Some p))
      by (by rewrite Hh).
    destruct (answer_of (query_endpoint inp ep (l ++ [Message user p]) 400%Z))
      as [a|] eqn:Ha.
    + rewrite (render_chat_interface_success _ _ _ _ _ _ _ Hl Hp Hne Ha), Hh.
      cbn [snd trace].
      eexists Rerun, _, _, [Message user p; Message assistant a].
      rewrite <- app_assoc. split; [reflexivity|]. split_and!; auto.
      * intros; absent; auto.
      * right. exists p. split_and!; eauto. by rewrite queries_app, Hq1.
    + destruct (render_chat_interface_failure _ _ _ _ _ _ Hl Hp Hne Ha)
        as (o & s' & msg & evs & Hr & Ho & Hm & _ & Hq & Hn & _).
      rewrite Hr, Hh. cbn [snd trace].
      eexists o, s', _, [Message user p].
      rewrite <- app_assoc. split; [reflexivity|]. split_and!; auto.
      * intros; absent; auto.
      * right. exists p. split_and!; eauto. by rewrite queries_app, Hq1; cbn; rewrite Hq.
Qed.

(** ** The whole script *)

Lemma validate_environment_run inp ep w :
  environ inp !! "SERVING_ENDPOINT" = Some ep → ep ≠ "" →
  validate_environment inp w = (Return ep, w).
Proof.
  intros Henv Hne. unfold validate_environment. rewrite Henv.
  by rewrite (bool_decide_eq_false_2 _ Hne).
Qed.

Lemma get_user_info_run inp s t :
  ∃ evs,
    get_user_info inp (World s t) =
      (Return (user_email (context_headers inp)), World s (t ++ evs)) ∧
    queries evs = [] ∧ (st_chat_input ∉ evs).
Proof.
  unfold get_user_info, read_headers, user_email.
  destruct (context_headers inp) as [|e| |h]; run.
  2: { eexists [_]. split; [reflexivity|]. split; [reflexivity|absent]. }
  all: exists []; rewrite app_nil_r; split; [reflexivity|];
    split; [reflexivity|absent].
Qed.

Lemma initialize_session_state_run s t :
  initialize_session_state (World s t) = (Return tt, World (initialized s) t).
Proof.
  expose_session s. unfold initialize_session_state, initialized. run.
  destruct visibility0, messages0; reflexivity.
Qed.

Lemma initialized_messages s :
  messages (initialized s) = Some (default [] (messages s)).
Proof. expose_session s. unfold initialized. destruct visibility0, messages0; reflexivity. Qed.

Lemma initialized_selected_question s :
  selected_question (initialized s) = selected_question s.
Proof. expose_session s. unfold initialized. destruct visibility0, messages0; reflexivity. Qed.

Lemma initialized_show_all_messages s :
  show_all_messages (initialized s) = show_all_messages s.
Proof. expose_session s. unfold initialized. destruct visibility0, messages0; reflexivity. Qed.

Lemma initialized_idempotent s : initialized (initialized s) = initialized s.
Proof. expose_session s. unfold initialized. destruct visibility0, messages0; reflexivity. Qed.

Lemma render_sidebar_run ep email s t l :
  messages s = Some l →
  render_sidebar ep email (World s t) =
    (Return tt,
     World s (t ++ [st_write ("**Messages:** " +:+ pretty (length l));
                    st_write "**Status:** Active";
                    st_write ("📧 " +:+ email);
                    st_write ("Endpoint: " +:+ ep)])).
Proof.
  intros Hl. expose_session s. unfold render_sidebar. run.
  by rewrite <- !app_assoc.
Qed.

Lemma suggested_question_buttons_idle inp qs i s t :
  (∀ j, clicked inp (main_question j) = false) →
  suggested_question_buttons inp i qs (World s t) =
    (Return tt, World s (t ++ question_buttons i (length qs))).
Proof.
  intros Hidle. revert i t.
  induction qs as [|q qs IH]; intros i t; cbn [suggested_question_buttons].
  - run. unfold question_buttons. cbn. by rewrite app_nil_r.
  - run. rewrite Hidle. run. rewrite IH. unfold question_buttons. cbn.
    by rewrite <- app_assoc.
Qed.

(** Clicking the [i]-th suggestion stages its text and reruns. *)
Lemma suggested_question_buttons_click base i r q s t :
  get_suggested_questions !! i = Some q →
  ∃ t',
    suggested_question_buttons (clicking base (main_question (S i)) r) 1
      get_suggested_questions (World s t) =
    (Rerun, World (set_selected_question (Some q) s) t').
Proof.
  intros Hq. expose_session s.
  destruct i as [|[|[|[|i]]]]; cbn in Hq; simplify_eq; eexists; cbn; run; reflexivity.
Qed.

Lemma render_main_content_chat inp ep s t :
  (∀ j, clicked inp (main_question j) = false) →
  clicked inp reset_chat = false →
  render_main_content inp ep (World s t) =
    render_chat_interface inp ep
      (World s (t ++ question_buttons 1 4 ++ [st_button reset_chat])).
Proof.
  intros Hq Hr. unfold render_main_content.
  unfold bind at 1. rewrite (suggested_question_buttons_idle _ _ _ _ _ Hq).
  run. by rewrite <- !app_assoc.
Qed.

Lemma render_main_content_reset inp ep s t :
  (∀ j, clicked inp (main_question j) = false) →
  clicked inp reset_chat = true →
  render_main_content inp ep (World s t) =
    (Rerun, World (set_messages (Some []) s)
              (t ++ question_buttons 1 4 ++ [st_button reset_chat])).
Proof.
  intros Hq Hr. unfold render_main_content.
  unfold bind at 1. rewrite (suggested_question_buttons_idle _ _ _ _ _ Hq).
  run. by rewrite <- !app_assoc.
Qed.

Lemma main_run inp ep s t :
  environ inp !! "SERVING_ENDPOINT" = Some ep → ep ≠ "" →
  ∃ evs,
    main inp (World s t) =
      (render_main_content inp ep ;;
       render_sidebar ep (user_email (context_headers inp)))
        (World (initialized s) (t ++ evs)) ∧
    queries evs = [] ∧ (st_chat_input ∉ evs).
Proof.
  intros Henv Hne. unfold main.
  destruct (get_user_info_run inp s t) as (evs & Hu & Hq & Hn).
  exists evs. split; [|done].
  unfold bind at 1. rewrite (validate_environment_run _ _ _ Henv Hne).
  unfold bind at 1. rewrite Hu.
  unfold bind at 1. rewrite initialize_session_state_run. reflexivity.
Qed.

(** The pass that follows a rerun changes nothing but the defaults. *)
Lemma main_idle inp ep s t :
  environ inp !! "SERVING_ENDPOINT" = Some ep → ep ≠ "" →
  ∃ t', main (idle inp) (World s t) = (Return tt, World (initialized s) t').
Proof.
  intros Henv Hne.
  destruct (main_run (idle inp) ep s t Henv Hne) as (evs & -> & _).
  unfold bind. rewrite render_main_content_chat by done.
  rewrite render_chat_interface_unfold, handle_question_selection_run.
  cbn [idle clicked typed].
  assert (Hshow : ∀ t1, ∃ t',
    match display_history (idle inp) (World (initialized s) t1) with
    | (Return _, w') => render_sidebar ep (user_email (context_headers (idle inp))) w'
    | (Raise e, w') => (Raise e, w')
    | (Rerun, w') => (Rerun, w')
    | (Stop, w') => (Stop, w')
    end = (Return tt, World (initialized s) t')).
  { intros t1.
    destruct (display_history_session (idle inp) (initialized s) t1 _
                (initialized_messages s))
      as (o & s' & evs' & -> & _ & _ & _ & _ & _ & Hidle).
    destruct Hidle as [-> ->]; [done..|].
    erewrite render_sidebar_run by apply initialized_messages. eauto. }
  destruct (selected_question (initialized s)); cbn zeta;
    rewrite process_prompt_skip by auto; apply Hshow.
Qed.

(** ** Interactions *)

Ltac project_initialized :=
  repeat first
    [ rewrite initialized_messages
    | rewrite initialized_selected_question
    | rewrite initialized_show_all_messages
    | progress cbn [set_messages set_selected_question set_show_all_messages
                    messages selected_question show_all_messages
                    default from_option id] ].

Lemma interact_prompt inp ep s p :
  environ inp !! "SERVING_ENDPOINT" = Some ep → ep ≠ "" →
  (∀ b, b ≠ use_question → clicked inp b = false) →
  (∀ t, (handle_question_selection inp (World (initialized s) t)).1 = Return (Some p)) →
  p ≠ "" →
  let l := default [] (messages s) in
  interact inp s =
    match answer_of (query_endpoint inp ep (l ++ [Message user p]) 400%Z) with
    | Some a =>
        initialized
          (set_messages (Some (l ++ [Message user p; Message assistant a]))
             (set_selected_question None (initialized s)))
    | None =>
        set_messages (Some (l ++ [Message user p]))
          (set_selected_question None (initialized s))
    end.
Proof.
  intros Henv Hne Hidle Hp Hpne l. unfold interact.
  destruct (main_run inp ep s [] Henv Hne) as (evs & -> & _).
  unfold bind. rewrite render_main_content_chat by (intros; by apply Hidle).
  pose proof (initialized_messages s) as Hl. fold l in Hl.
  destruct (answer_of _) as [a|] eqn:Ha.
  - rewrite (render_chat_interface_success _ _ _ _ _ _ _ Hl (Hp _) Hpne Ha).
    destruct (main_idle inp ep
      (set_messages (Some (l ++ [Message user p; Message assistant a]))
         (set_selected_question None (initialized s))) [] Henv Hne) as (t' & Hm).
    cbn [session]. by rewrite Hm.
  - match goal with
    | |- context [render_chat_interface inp ep (World _ ?t1)] =>
        destruct (render_chat_interface_failure inp ep _ t1 _ _ Hl (Hp t1) Hpne Ha)
          as (o & s' & msg & evs' & -> & _ & _ & _ & _ & _ & Hstay)
    end.
    destruct Hstay as [-> ->]; [by apply Hidle..|].
    by erewrite render_sidebar_run by (by expose_session s).
Qed.

Lemma interact_typing base ep text r s :
  environ base !! "SERVING_ENDPOINT" = Some ep → ep ≠ "" →
  selected_question s = None → text ≠ "" →
  let l := default [] (messages s) in
  let s' := interact (typing base text r) s in
  messages s' =
    Some (l ++ Message user text ::
               match answer_of r with Some a => [Message assistant a] | None => [] end) ∧
  selected_question s' = None ∧
  show_all_messages s' = show_all_messages s.
Proof.
  intros Henv Hne Hs Ht l s'. unfold s'.
  rewrite (interact_prompt _ ep s text); auto.
  - cbn [typing query_endpoint]. fold l.
    destruct (answer_of r); split_and!; project_initialized; done.
  - intros t. rewrite handle_question_selection_run.
    by rewrite initialized_selected_question, Hs.
Qed.

Lemma interact_use base ep q r s :
  environ base !! "SERVING_ENDPOINT" = Some ep → ep ≠ "" →
  selected_question s = Some q → q ≠ "" →
  let l := default [] (messages s) in
  let s' := interact (clicking base use_question r) s in
  messages s' =
    Some (l ++ Message user q ::
               match answer_of r with Some a => [Message assistant a] | None => [] end) ∧
  selected_question s' = None ∧
  show_all_messages s' = show_all_messages s.
Proof.
  intros Henv Hne Hs Ht l s'. unfold s'.
  rewrite (interact_prompt _ ep s q); auto.
  - cbn [clicking query_endpoint]. fold l.
    destruct (answer_of r); split_and!; project_initialized; done.
  - intros b Hb. by destruct b.
  - intros t. rewrite handle_question_selection_run.
    by rewrite initialized_selected_question, Hs.
Qed.

Lemma interact_stage base ep i q r s :
  environ base !! "SERVING_ENDPOINT" = Some ep → ep ≠ "" →
  get_suggested_questions !! i = Some q →
  let s' := interact (clicking base (main_question (S i)) r) s in
  messages s' = Some (default [] (messages s)) ∧
  selected_question s' = Some q ∧
  show_all_messages s' = show_all_messages s.
Proof.
  intros Henv Hne Hq s'.
  assert (s' = initialized (set_selected_question (Some q) (initialized s))) as ->.
  { unfold s', interact.
    destruct (main_run (clicking base (main_question (S i)) r) ep s [] Henv Hne)
      as (evs & -> & _).
    unfold bind at 1. unfold render_main_content. unfold bind at 1.
    destruct (suggested_question_buttons_click base i r q (initialized s) ([] ++ evs) Hq)
      as (t' & ->).
    destruct (main_idle (clicking base (main_question (S i)) r) ep
                (set_selected_question (Some q) (initialized s)) [] Henv Hne)
      as (t'' & Hm).
    cbn [session]. by rewrite Hm. }
  split_and!; project_initialized; done.
Qed.

(** ** Conversations *)

Lemma suggested_questions_nonempty i q :
  get_suggested_questions !! i = Some q → q ≠ "".
Proof. destruct i as [|[|[|[|i]]]]; cbn; intros; simplify_eq; discriminate. Qed.

Lemma play_turn_messages base ep t s p :
  environ base !! "SERVING_ENDPOINT" = Some ep → ep ≠ "" →
  selected_question s = None →
  prompt_of t = Some p →
  message_log (play_turn base t s) = message_log s ++ turn_messages t ∧
  selected_question (play_turn base t s) = None.
Proof.
  intros Henv Hne Hs Hp. unfold play_turn, turn_messages, message_log. rewrite Hp.
  unfold prompt_of in Hp. destruct (source t) as [text|[|i]]; [|done|].
  - case_bool_decide; simplify_eq.
    destruct (interact_typing base ep p (result t) s) as (-> & -> & _); auto.
  - pose proof (suggested_questions_nonempty _ _ Hp) as Hq.
    destruct (interact_stage base ep i p (result t) s) as (Hm & Hsel & _); auto.
    destruct (interact_use base ep p (result t)
                (interact (clicking base (main_question (S i)) (result t)) s))
      as (-> & -> & _); auto.
    by rewrite Hm.
Qed.

Lemma play_app base ts1 ts2 s :
  play base (ts1 ++ ts2) s = play base ts2 (play base ts1 s).
Proof. apply foldl_app. Qed.

Lemma transcript_app ts1 ts2 :
  transcript (ts1 ++ ts2) = transcript ts1 ++ transcript ts2.
Proof. unfold transcript. by rewrite fmap_app, concat_app. Qed.

Lemma play_messages base ep ts s :
  environ base !! "SERVING_ENDPOINT" = Some ep → ep ≠ "" →
  selected_question s = None →
  Forall (λ t, is_Some (prompt_of t)) ts →
  message_log (play base ts s) = message_log s ++ transcript ts ∧
  selected_question (play base ts s) = None.
Proof.
  intros Henv Hne Hs Hts. revert s Hs.
  induction Hts as [|t ts [p Hp] _ IH]; intros s Hs.
  - by rewrite app_nil_r.
  - cbn [play foldl]. fold (play base ts (play_turn base t s)).
    destruct (play_turn_messages base ep t s p) as [Hm Hsel]; auto.
    destruct (IH _ Hsel) as [-> ->]. rewrite Hm.
    unfold transcript. cbn. by rewrite <- app_assoc.
Qed.

Lemma answered_turn_messages t :
  answered t →
  ∃ p a, turn_messages t = [Message user p; Message assistant a].
Proof.
  intros [[p Hp] [a Ha]]. unfold turn_messages. rewrite Hp, Ha. eauto.
Qed.

Lemma transcript_answered ts :
  Forall answered ts →
  length (transcript ts) = 2 * length ts ∧ alternating (transcript ts).
Proof.
  induction 1 as [|t ts Ht _ [IHl IHa]]; [done|].
  destruct (answered_turn_messages t Ht) as (p & a & Hm).
  unfold transcript in *. cbn [fmap list_fmap concat]. rewrite Hm. cbn.
  split; [rewrite IHl; lia|]. repeat split. exact IHa.
Qed.

Lemma transcript_take ts k :
  Forall answered ts →
  transcript (take k ts) = take (2 * k) (transcript ts).
Proof.
  intros Hts. revert k. induction Hts as [|t ts Ht _ IH]; intros k.
  - rewrite take_nil. unfold transcript. cbn [fmap list_fmap concat].
    by rewrite take_nil.
  - destruct (answered_turn_messages t Ht) as (p & a & Hm).
    destruct k as [|k]; [reflexivity|].
    replace (2 * S k) with (S (S (2 * k))) by lia.
    unfold transcript in *. cbn [take fmap list_fmap concat]. rewrite Hm. cbn.
    by rewrite IH.
Qed.

(** * The claims *)

(** C4: starting from an empty message log, after N typed or confirmed
    prompts whose remote calls all succeed the log has 2N entries whose roles
    alternate user, assistant, ... starting with user; the log after the first
    k turns is the first 2k entries of the final one, and every pass of the
    chat interface only appends to the log. *)
Theorem successful_turns_alternate base ep ts s0 :
  environ base !! "SERVING_ENDPOINT" = Some ep → ep ≠ "" →
  message_log s0 = [] → selected_question s0 = None →
  Forall answered ts →
  let l := message_log (play base ts s0) in
  l = transcript ts ∧
  length l = 2 * length ts ∧
  alternating l ∧
  (∀ k, message_log (play base (take k ts) s0) = take (2 * k) l) ∧
  (∀ inp s t l0,
     messages s = Some l0 →
     ∃ added,
       messages (session (render_chat_interface inp ep (World s t)).2)
       = Some (l0 ++ added)).
Proof.
  intros Henv Hne Hlog Hsel Hts l.
  assert (Hprompts : ∀ ts', Forall answered ts' →
            Forall (λ t, is_Some (prompt_of t)) ts').
  { intros ts' H. eapply Forall_impl; [exact H|]. by intros t [? _]. }
  assert (Hl : l = transcript ts).
  { unfold l. destruct (play_messages base ep ts s0) as [-> _]; auto.
    by rewrite Hlog. }
  destruct (transcript_answered ts Hts) as [Hlen Halt].
  rewrite Hl. split_and!; auto.
  - intros k.
    destruct (play_messages base ep (take k ts) s0) as [-> _]; auto.
    { apply Hprompts. by apply Forall_take. }
    rewrite Hlog. by apply transcript_take.
  - intros inp s t l0 Hl0.
    destruct (render_chat_interface_adds inp ep s t l0 Hl0)
      as (o & s' & evs & added & -> & _ & Hm & _).
    by exists added.
Qed.

Lemma successful_turns_alternate_witness :
  let l := message_log (play sample_base sample_turns empty_session) in
  l = transcript sample_turns ∧
  length l = 2 * length sample_turns ∧
  alternating l ∧
  (∀ k, message_log (play sample_base (take k sample_turns) empty_session)
        = take (2 * k) l) ∧
  (∀ inp s t l0,
     messages s = Some l0 →
     ∃ added,
       messages (session (render_chat_interface inp "rag-endpoint" (World s t)).2)
       = Some (l0 ++ added)).
Proof.
  apply (successful_turns_alternate sample_base "rag-endpoint" sample_turns
           empty_session).
  - reflexivity.
  - discriminate.
  - reflexivity.
  - reflexivity.
  - repeat constructor; eexists; reflexivity.
Defined.

Example sample_conversation :
  message_log (play sample_base sample_turns empty_session) =
  [ Message user "What is Lakeflow?";
    Message assistant "A managed ingestion service.";
    Message user "What source systems are supported by Lakeflow?";
    Message assistant "Many." ].
Proof. vm_compute. reflexivity. Qed.

(** C1: in a pass that processes a non-empty prompt, when the endpoint call
    raises or its response cannot be normalized, the user message appended at
    the start of the turn stays and no assistant message is appended; when the
    k-th remote call of a conversation is the first to fail, the log holds
    exactly 2(k-1)+1 entries: the earlier pairs and the unanswered question. *)
Theorem failed_call_keeps_question base ep ts t p s0 :
  environ base !! "SERVING_ENDPOINT" = Some ep → ep ≠ "" →
  message_log s0 = [] → selected_question s0 = None →
  Forall answered ts →
  prompt_of t = Some p → answer_of (result t) = None →
  let k := S (length ts) in
  let l := message_log (play base (ts ++ [t]) s0) in
  l = transcript ts ++ [Message user p] ∧
  length l = 2 * (k - 1) + 1 ∧
  (∀ inp s tr l0 q,
     messages s = Some l0 →
     (handle_question_selection inp (World s tr)).1 = Return (Some q) →
     q ≠ "" →
     answer_of (query_endpoint inp ep (l0 ++ [Message user q]) 400%Z) = None →
     messages (session (render_chat_interface inp ep (World s tr)).2)
     = Some (l0 ++ [Message user q])).
Proof.
  intros Henv Hne Hlog Hsel Hts Hp Ha k l.
  assert (Hl : l = transcript ts ++ [Message user p]).
  { unfold l. destruct (play_messages base ep (ts ++ [t]) s0) as [-> _]; auto.
    - apply Forall_app. split.
      + eapply Forall_impl; [exact Hts|]. by intros ? [? _].
      + repeat constructor. by exists p.
    - rewrite Hlog, transcript_app. unfold transcript at 2, turn_messages. cbn.
      by rewrite Hp, Ha. }
  split_and!; [done| |].
  - rewrite Hl, length_app. destruct (transcript_answered ts Hts) as [-> _].
    unfold k. cbn [length]. lia.
  - intros inp s tr l0 q Hl0 Hq Hqne Hfail.
    destruct (render_chat_interface_failure inp ep s tr l0 q Hl0 Hq Hqne Hfail)
      as (o & s' & msg & evs & -> & _ & Hm & _).
    exact Hm.
Qed.

Lemma failed_call_keeps_question_witness :
  let k := S (length sample_turns) in
  let l := message_log (play sample_base (sample_turns ++ [failing_turn]) empty_session) in
  l = transcript sample_turns ++ [Message user "And then?"] ∧
  length l = 2 * (k - 1) + 1 ∧
  (∀ inp s tr l0 q,
     messages s = Some l0 →
     (handle_question_selection inp (World s tr)).1 = Return (Some q) →
     q ≠ "" →
     answer_of (query_endpoint inp "rag-endpoint" (l0 ++ [Message user q]) 400%Z) = None →
     messages (session (render_chat_interface inp "rag-endpoint" (World s tr)).2)
     = Some (l0 ++ [Message user q])).
Proof.
  apply (failed_call_keeps_question sample_base "rag-endpoint" sample_turns
           failing_turn "And then?" empty_session).
  - reflexivity.
  - discriminate.
  - reflexivity.
  - reflexivity.
  - repeat constructor; eexists; reflexivity.
  - reflexivity.
  - reflexivity.
Defined.

Example failed_third_call :
  message_log (play sample_base (sample_turns ++ [failing_turn]) empty_session) =
  [ Message user "What is Lakeflow?";
    Message assistant "A managed ingestion service.";
    Message user "What source systems are supported by Lakeflow?";
    Message assistant "Many.";
    Message user "And then?" ].
Proof. vm_compute. reflexivity. Qed.

(** C5: the endpoint's result is normalized to the assistant's text and
    appended as an assistant message: a bare string is taken as it is, a
    structured object gives its [content] field, and a structured object
    without that field gives the empty string. *)
Theorem response_normalization inp ep s t l p :
  messages s = Some l →
  (handle_question_selection inp (World s t)).1 = Return (Some p) →
  p ≠ "" →
  let reply := query_endpoint inp ep (l ++ [Message user p]) 400%Z in
  let after := messages (session (render_chat_interface inp ep (World s t)).2) in
  (∀ a, reply = Answers (Text a) →
        after = Some (l ++ [Message user p; Message assistant a])) ∧
  (∀ fields a, reply = Answers (Structured fields) → fields !! "content" = Some a →
        after = Some (l ++ [Message user p; Message assistant a])) ∧
  (∀ fields, reply = Answers (Structured fields) → fields !! "content" = None →
        after = Some (l ++ [Message user p; Message assistant ""])) ∧
  (∀ a w, normalize (Text a) w = (Return a, w)) ∧
  (∀ fields a w, fields !! "content" = Some a →
        normalize (Structured fields) w = (Return a, w)) ∧
  (∀ fields w, fields !! "content" = None →
        normalize (Structured fields) w = (Return "", w)).
Proof.
  intros Hl Hp Hne reply after.
  assert (Hok : ∀ a, answer_of reply = Some a →
            after = Some (l ++ [Message user p; Message assistant a])).
  { intros a Ha. unfold after.
    by rewrite (render_chat_interface_success _ _ _ _ _ _ _ Hl Hp Hne Ha). }
  split_and!.
  - intros a Hr. apply Hok. by rewrite Hr.
  - intros fields a Hr Hc. apply Hok. rewrite Hr. cbn. by rewrite Hc.
  - intros fields Hr Hc. apply Hok. rewrite Hr. cbn. by rewrite Hc.
  - done.
  - intros fields a w Hc. unfold normalize, ret. by rewrite Hc.
  - intros fields w Hc. unfold normalize, ret. by rewrite Hc.
Qed.

Lemma response_normalization_witness :
  messages (session (render_chat_interface
                       (typing sample_base "hi" (Answers (Text "hello")))
                       "rag-endpoint" (World fresh_session [])).2)
    = Some ([] ++ [Message user "hi"; Message assistant "hello"]) ∧
  messages (session (render_chat_interface
                       (typing sample_base "hi"
                          (Answers (Structured {[ "content" := "hello" ]})))
                       "rag-endpoint" (World fresh_session [])).2)
    = Some ([] ++ [Message user "hi"; Message assistant "hello"]) ∧
  messages (session (render_chat_interface
                       (typing sample_base "hi" (Answers (Structured ∅)))
                       "rag-endpoint" (World fresh_session [])).2)
    = Some ([] ++ [Message user "hi"; Message assistant ""]).
Proof.
  destruct (response_normalization
              (typing sample_base "hi" (Answers (Text "hello")))
              "rag-endpoint" fresh_session [] [] "hi")
    as (Htext & _); [reflexivity|reflexivity|discriminate|].
  destruct (response_normalization
              (typing sample_base "hi"
                 (Answers (Structured {[ "content" := "hello" ]})))
              "rag-endpoint" fresh_session [] [] "hi")
    as (_ & Hcontent & _); [reflexivity|reflexivity|discriminate|].
  destruct (response_normalization
              (typing sample_base "hi" (Answers (Structured ∅)))
              "rag-endpoint" fresh_session [] [] "hi")
    as (_ & _ & Hempty & _); [reflexivity|reflexivity|discriminate|].
  split; [|split].
  - apply Htext. reflexivity.
  - apply (Hcontent {[ "content" := "hello" ]}); reflexivity.
  - apply (Hempty ∅); reflexivity.
Defined.

Example normalize_bare_string :
  messages (session (render_chat_interface
                       (typing sample_base "hi" (Answers (Text "hello")))
                       "rag-endpoint" (World fresh_session [])).2)
  = Some [Message user "hi"; Message assistant "hello"].
Proof. vm_compute. reflexivity. Qed.

Example normalize_content_field :
  messages (session (render_chat_interface
                       (typing sample_base "hi"
                          (Answers (Structured {[ "content" := "hello" ]})))
                       "rag-endpoint" (World fresh_session [])).2)
  = Some [Message user "hi"; Message assistant "hello"].
Proof. vm_compute. reflexivity. Qed.

Example normalize_empty_object :
  messages (session (render_chat_interface
                       (typing sample_base "hi" (Answers (Structured ∅)))
                       "rag-endpoint" (World fresh_session [])).2)
  = Some [Message user "hi"; Message assistant ""].
Proof. vm_compute. reflexivity. Qed.

(** C6: for a non-empty prompt the controller first appends the user message
    and then calls the endpoint, once, with the whole message log, the new
    user entry last, and [max_tokens = 400]. *)
Theorem endpoint_called_with_full_log inp ep s t l p :
  messages s = Some l →
  p ≠ "" →
  (∃ o s' evs rest,
     process_prompt inp ep (Some p) (World s t) =
       (o, World s' (t ++ endpoint_query ep (l ++ [Message user p]) 400%Z :: evs)) ∧
     queries evs = [] ∧
     messages s' = Some (l ++ Message user p :: rest)) ∧
  ((handle_question_selection inp (World s t)).1 = Return (Some p) →
   ∃ o s' evs,
     render_chat_interface inp ep (World s t) = (o, World s' (t ++ evs)) ∧
     queries evs = [endpoint_query ep (l ++ [Message user p]) 400%Z]).
Proof.
  intros Hl Hne. split.
  - rewrite (process_prompt_run _ _ _ _ _ l Hl Hne). cbn zeta.
    destruct (query_endpoint inp ep _ _) as [[a|fields|ty]|e].
    1,2: eexists _, _, [], [_]; rewrite <- (app_assoc l); cbn [app];
      (split; [reflexivity|]); split; [done|by expose_session s].
    all: eexists _, _, [_; _], []; rewrite <- (app_assoc t); cbn [app];
      (split; [reflexivity|]); split; [done|by expose_session s].
  - intros Hp.
    destruct (handle_question_selection_prompt _ _ _ _ Hp) as (evs1 & Hh & Hq1 & _).
    destruct (answer_of (query_endpoint inp ep (l ++ [Message user p]) 400%Z))
      as [a|] eqn:Ha.
    + rewrite (render_chat_interface_success _ _ _ _ _ _ _ Hl Hp Hne Ha), Hh.
      cbn [snd trace]. rewrite <- app_assoc.
      eexists _, _, _. split; [reflexivity|]. by rewrite queries_app, Hq1.
    + destruct (render_chat_interface_failure _ _ _ _ _ _ Hl Hp Hne Ha)
        as (o & s' & msg & evs & -> & _ & _ & _ & Hq & _).
      rewrite Hh. cbn [snd trace]. rewrite <- app_assoc.
      eexists _, _, _. split; [reflexivity|].
      rewrite queries_app, Hq1. cbn. by rewrite Hq.
Qed.

Lemma endpoint_called_with_full_log_witness :
  let inp := typing sample_base "hi" (Answers (Text "hello")) in
  (∃ o s' evs rest,
     process_prompt inp "rag-endpoint" (Some "hi") (World fresh_session []) =
       (o, World s' ([] ++ endpoint_query "rag-endpoint" ([] ++ [Message user "hi"]) 400%Z
                          :: evs)) ∧
     queries evs = [] ∧
     messages s' = Some ([] ++ Message user "hi" :: rest)) ∧
  (∃ o s' evs,
     render_chat_interface inp "rag-endpoint" (World fresh_session []) =
       (o, World s' ([] ++ evs)) ∧
     queries evs = [endpoint_query "rag-endpoint" ([] ++ [Message user "hi"]) 400%Z]).
Proof.
  destruct (endpoint_called_with_full_log
              (typing sample_base "hi" (Answers (Text "hello")))
              "rag-endpoint" fresh_session [] [] "hi")
    as (Hcontroller & Hpass); [reflexivity|discriminate|].
  split; [exact Hcontroller|]. apply Hpass. reflexivity.
Defined.

(** C7: staging a question and confirming it returns that question and
    leaves nothing staged; staging and discarding leaves nothing staged and
    the message log as it was; confirming with nothing staged returns
    nothing.  (With nothing staged the confirm button is not even rendered:
    the function returns what the chat input holds, which is nothing unless
    the user typed in that pass.) *)
Theorem stage_confirm_discard (question : string) inp s t :
  let staged := (stage question (World s t)).2 in
  (stage question (World s t)).1 = Rerun ∧
  selected_question (session staged) = Some question ∧
  messages (session staged) = messages s ∧
  (clicked inp use_question = true →
   ∃ w, handle_question_selection inp staged = (Return (Some question), w) ∧
        selected_question (session w) = None) ∧
  (clicked inp use_question = false → clicked inp clear_question = true →
   ∃ w, handle_question_selection inp staged = (Rerun, w) ∧
        selected_question (session w) = None ∧
        messages (session w) = messages s) ∧
  (selected_question s = None → clicked inp use_question = true → typed inp = None →
   ∃ w, handle_question_selection inp (World s t) = (Return None, w) ∧
        session w = s) ∧
  (selected_question s = None →
   handle_question_selection inp (World s t)
   = (Return (typed inp), World s (t ++ [st_chat_input]))).
Proof.
  cbn zeta. unfold stage. run. split_and!; try done.
  - intros Hc. rewrite handle_question_selection_run. cbn. rewrite Hc. eauto.
  - intros Hu Hc. rewrite handle_question_selection_run. cbn. rewrite Hu, Hc. eauto.
  - intros Hs Hu Ht. rewrite handle_question_selection_run, Hs, Ht. eauto.
  - intros Hs. by rewrite handle_question_selection_run, Hs.
Qed.

Lemma stage_confirm_discard_witness :
  (∃ w, handle_question_selection
          (clicking sample_base use_question (Answers (Text "hello")))
          (stage "Q1" (World fresh_session [])).2 = (Return (Some "Q1"), w) ∧
        selected_question (session w) = None) ∧
  (∃ w, handle_question_selection
          (clicking sample_base clear_question (Answers (Text "hello")))
          (stage "Q1" (World fresh_session [])).2 = (Rerun, w) ∧
        selected_question (session w) = None ∧
        messages (session w) = messages fresh_session) ∧
  (∃ w, handle_question_selection
          (clicking sample_base use_question (Answers (Text "hello")))
          (World fresh_session []) = (Return None, w) ∧
        session w = fresh_session).
Proof.
  split_and!.
  - apply (stage_confirm_discard "Q1"
             (clicking sample_base use_question (Answers (Text "hello")))
             fresh_session []).
    reflexivity.
  - apply (stage_confirm_discard "Q1"
             (clicking sample_base clear_question (Answers (Text "hello")))
             fresh_session []); reflexivity.
  - apply (stage_confirm_discard "Q1"
             (clicking sample_base use_question (Answers (Text "hello")))
             fresh_session []); reflexivity.
Defined.

Example stage_then_confirm :
  let inp := clicking sample_base use_question (Answers (Text "hello")) in
  let r := handle_question_selection inp (stage "Q1" (World fresh_session [])).2 in
  r.1 = Return (Some "Q1") ∧ selected_question (session r.2) = None.
Proof. vm_compute. done. Qed.

Example stage_then_discard :
  let inp := clicking sample_base clear_question (Answers (Text "hello")) in
  let r := handle_question_selection inp (stage "Q1" (World expanded_session [])).2 in
  r.1 = Rerun ∧ selected_question (session r.2) = None ∧
  messages (session r.2) = Some long_log.
Proof. vm_compute. done. Qed.

(** C8: in a pass in which a question is staged the chat input is not
    rendered and what is typed has no effect on the pass; any pass appends at
    most one user message, the confirmed staged question or the typed text,
    never both. *)
Theorem staged_question_blocks_free_text inp ep s t l :
  messages s = Some l →
  ∃ o s' evs added,
    render_chat_interface inp ep (World s t) = (o, World s' (t ++ evs)) ∧
    messages s' = Some (l ++ added) ∧
    (added = [] ∨
     ∃ p, (added = [Message user p] ∨ ∃ a, added = [Message user p; Message assistant a]) ∧
          (selected_question s = Some p ∧ clicked inp use_question = true
           ∨ selected_question s = None ∧ typed inp = Some p)) ∧
    (selected_question s ≠ None →
     (st_chat_input ∉ evs) ∧
     ∀ text, render_chat_interface (with_typed text inp) ep (World s t)
             = render_chat_interface inp ep (World s t)).
Proof.
  intros Hl.
  destruct (render_chat_interface_adds inp ep s t l Hl)
    as (o & s' & evs & added & Hr & _ & Hm & Hn & Hadd).
  exists o, s', evs, added. split_and!; auto.
  - destruct Hadd as [[-> _]|(p & _ & Hp & _ & Hadd)]; [by left|right].
    exists p. split; [exact Hadd|].
    destruct (handle_question_selection_prompt _ _ _ _ Hp) as (? & _ & _ & Hsrc).
    destruct Hsrc as [(? & ? & _)|[? ?]]; auto.
  - intros Hs. split; [by apply Hn|]. intros text.
    rewrite !render_chat_interface_unfold, !handle_question_selection_run.
    destruct (selected_question s) as [q|]; [reflexivity|done].
Qed.

Lemma staged_question_blocks_free_text_witness :
  let inp := with_typed (Some "typed text")
               (clicking sample_base use_question (Answers (Text "hello"))) in
  let s := set_selected_question (Some "Q1") fresh_session in
  ∃ o s' evs added,
    render_chat_interface inp "rag-endpoint" (World s []) = (o, World s' ([] ++ evs)) ∧
    messages s' = Some ([] ++ added) ∧
    (added = [] ∨
     ∃ p, (added = [Message user p] ∨ ∃ a, added = [Message user p; Message assistant a]) ∧
          (selected_question s = Some p ∧ clicked inp use_question = true
           ∨ selected_question s = None ∧ typed inp = Some p)) ∧
    (selected_question s ≠ None →
     (st_chat_input ∉ evs) ∧
     ∀ text, render_chat_interface (with_typed text inp) "rag-endpoint" (World s [])
             = render_chat_interface inp "rag-endpoint" (World s [])).
Proof.
  apply (staged_question_blocks_free_text
           (with_typed (Some "typed text")
              (clicking sample_base use_question (Answers (Text "hello"))))
           "rag-endpoint" (set_selected_question (Some "Q1") fresh_session) [] []).
  reflexivity.
Defined.

Example staged_pass_ignores_typed_text :
  messages (session (render_chat_interface
     (with_typed (Some "typed text")
        (clicking sample_base use_question (Answers (Text "hello"))))
     "rag-endpoint" (World (set_selected_question (Some "Q1") fresh_session) [])).2)
  = Some [Message user "Q1"; Message assistant "hello"].
Proof. vm_compute. reflexivity. Qed.

(** C9: the user-identity lookup always returns; when the headers are
    missing, the e-mail header is absent or the header access raises, the
    result is the sentinel "Not available", and the session is untouched. *)
Theorem get_user_info_never_fails inp s t :
  ∃ email evs,
    get_user_info inp (World s t) = (Return email, World s (t ++ evs)) ∧
    match context_headers inp with
    | Headers h =>
        match h !! "X-Forwarded-Email" with
        | Some v => email = v
        | None => email = "Not available"
        end
    | NoHeadersAttribute | HeadersNone | HeadersRaise _ => email = "Not available"
    end.
Proof.
  destruct (get_user_info_run inp s t) as (evs & Hr & _).
  exists (user_email (context_headers inp)), evs. split; [exact Hr|].
  unfold user_email.
  destruct (context_headers inp) as [|e| |h]; try reflexivity.
  by destruct (h !! "X-Forwarded-Email").
Qed.

Example user_info_when_headers_raise :
  (get_user_info
     (PassInput ∅ (HeadersRaise (Exception "no script run context"))
        (λ _, false) None (λ _ _ _, Fails (Exception "unreachable")))
     (World fresh_session [])) =
  (Return "Not available",
   World fresh_session
     [logging_warning "Error getting user info: no script run context"]).
Proof. vm_compute. reflexivity. Qed.

(** C10: confirming a staged question clears it before the endpoint is
    called; when that call fails the question stays cleared and the user
    message stays in the log. *)
Theorem confirmed_question_cleared_before_call inp ep s t l q :
  messages s = Some l →
  selected_question s = Some q →
  clicked inp use_question = true →
  q ≠ "" →
  answer_of (query_endpoint inp ep (l ++ [Message user q]) 400%Z) = None →
  let resolved := handle_question_selection inp (World s t) in
  let pass := render_chat_interface inp ep (World s t) in
  resolved.1 = Return (Some q) ∧
  selected_question (session resolved.2) = None ∧
  queries (trace resolved.2) = queries t ∧
  pass =
    (match process_prompt inp ep (Some q) resolved.2 with
     | (Return _, w) => display_history inp w
     | r => r
     end) ∧
  queries (trace pass.2)
    = queries t ++ [endpoint_query ep (l ++ [Message user q]) 400%Z] ∧
  selected_question (session pass.2) = None ∧
  messages (session pass.2) = Some (l ++ [Message user q]).
Proof.
  intros Hl Hs Hc Hne Ha resolved pass.
  assert (Hres : resolved =
    (Return (Some q),
     World (set_selected_question None s)
       (t ++ [st_info ("📝 Selected question: " +:+ q); st_button use_question]))).
  { unfold resolved. by rewrite handle_question_selection_run, Hs, Hc. }
  assert (Hp : (handle_question_selection inp (World s t)).1 = Return (Some q)).
  { fold resolved. by rewrite Hres. }
  destruct (render_chat_interface_failure inp ep s t l q Hl Hp Hne Ha)
    as (o & s' & msg & evs & Hpass & _ & Hm & Hsel & Hq & _).
  fold pass resolved in Hpass.
  split_and!.
  - by rewrite Hres.
  - by rewrite Hres.
  - rewrite Hres. cbn [snd trace]. rewrite queries_app. cbn. by rewrite app_nil_r.
  - unfold pass. rewrite render_chat_interface_unfold. fold resolved.
    rewrite Hres. cbn [snd].
    by destruct (process_prompt inp ep (Some q) _) as [[[]| | |] ?].
  - rewrite Hpass, Hres. cbn [snd trace]. rewrite !queries_app. cbn.
    by rewrite Hq, app_nil_r.
  - by rewrite Hpass.
  - by rewrite Hpass.
Qed.

Lemma confirmed_question_cleared_before_call_witness :
  let inp := clicking sample_base use_question (Fails (Exception "timeout")) in
  let s := set_selected_question (Some "Q1") fresh_session in
  let resolved := handle_question_selection inp (World s []) in
  let pass := render_chat_interface inp "rag-endpoint" (World s []) in
  resolved.1 = Return (Some "Q1") ∧
  selected_question (session resolved.2) = None ∧
  queries (trace resolved.2) = queries [] ∧
  pass =
    (match process_prompt inp "rag-endpoint" (Some "Q1") resolved.2 with
     | (Return _, w) => display_history inp w
     | r => r
     end) ∧
  queries (trace pass.2)
    = queries [] ++ [endpoint_query "rag-endpoint" ([] ++ [Message user "Q1"]) 400%Z] ∧
  selected_question (session pass.2) = None ∧
  messages (session pass.2) = Some ([] ++ [Message user "Q1"]).
Proof.
  apply (confirmed_question_cleared_before_call
           (clicking sample_base use_question (Fails (Exception "timeout")))
           "rag-endpoint" (set_selected_question (Some "Q1") fresh_session) [] [] "Q1").
  - reflexivity.
  - reflexivity.
  - reflexivity.
  - discriminate.
  - reflexivity.
Defined.

Example failed_confirmed_question :
  let pass :=
    render_chat_interface
      (clicking sample_base use_question (Fails (Exception "timeout")))
      "rag-endpoint" (World (set_selected_question (Some "Q1") fresh_session) []) in
  pass.1 = Return tt ∧
  session pass.2 = set_messages (Some [Message user "Q1"]) fresh_session ∧
  trace pass.2 =
    [ st_info "📝 Selected question: Q1";
      st_button use_question;
      endpoint_query "rag-endpoint" [Message user "Q1"] 400%Z;
      logger_error "Error getting response from endpoint: timeout";
      st_error "Error getting response from endpoint: timeout";
      st_chat_message user "Q1" ].
Proof. vm_compute. done. Qed.

Lemma string_length_append (a b : string) :
  String.length (a +:+ b) = String.length a + String.length b.
Proof.
  induction a as [|c a IH]; [done|].
  simpl. by rewrite IH.
Qed.

Lemma string_append_cancel_r (a b c : string) : a +:+ c = b +:+ c → a = b.
Proof.
  revert b. induction a as [|x a IH]; intros [|y b] H.
  - done.
  - apply (f_equal String.length) in H.
    rewrite !string_length_append in H. simpl in H. lia.
  - apply (f_equal String.length) in H.
    rewrite !string_length_append in H. simpl in H. lia.
  - simpl in H. injection H as -> H. f_equal. by apply IH.
Qed.

(** C3: the history presenter is a function of the message log and the
    show-all toggle.  Up to 6 messages: all of them, no banner.  More than 6
    and the toggle off: the last 6, in order, under the banner "Showing
    latest 3 Q&A pairs. Click 'Show All History' to see N earlier messages."
    where N is [len - 6] in decimal, so that logs with different numbers of
    hidden messages get different banners.  More than 6 and the toggle on:
    all of them, no banner.  [display_history] renders exactly that (an
    empty log gets the start-a-conversation hint instead, which is no
    truncation banner). *)
Theorem history_presenter_policy (l : list message) (show_all : bool) :
  let shown := messages_to_show l show_all in
  (length l ≤ 6 → shown = (l, [])) ∧
  (6 < length l → show_all = false →
   shown = (drop (length l - 6) l,
            ["Showing latest 3 Q&A pairs. Click 'Show All History' to see "
               +:+ pretty (length l - 6) +:+ " earlier messages."]) ∧
   length shown.1 = 6 ∧ shown.1 `suffix_of` l ∧
   (∀ l' : list message,
      6 < length l' →
      (messages_to_show l' false).2 = shown.2 → length l' - 6 = length l - 6)) ∧
  (6 < length l → show_all = true → shown = (l, [])) ∧
  (∀ inp s t,
     messages s = Some l → show_all_history s = show_all →
     clicked inp collapse_messages = false → clicked inp expand_messages = false →
     display_history inp (World s t) =
       (Return tt,
        World s (t ++ match l with
                      | [] => [st_info start_conversation]
                      | _ :: _ =>
                          history_controls (length l) show_all
                            ++ (st_info <$> shown.2) ++ (chat_event <$> shown.1)
                      end))).
Proof.
  cbn zeta. split_and!.
  - intros Hlen. unfold messages_to_show.
    rewrite (bool_decide_eq_true_2 _ Hlen), orb_true_r.
    case_bool_decide; [lia|]. by rewrite andb_false_r.
  - intros Hlen ->. unfold messages_to_show, last_six.
    rewrite bool_decide_eq_false_2 by lia. cbn [orb fst snd].
    split_and!; [done| |apply suffix_drop|]; [rewrite length_drop; lia|].
    intros l' Hlen'. rewrite bool_decide_eq_false_2 by lia. cbn [orb snd].
    unfold latest_banner. intros Heq. injection Heq as Heq.
    apply (inj (String.app _)) in Heq.
    apply string_append_cancel_r in Heq. by apply (inj pretty) in Heq.
  - intros Hlen ->. unfold messages_to_show. done.
  - intros inp s t Hl <- Hc He.
    rewrite (display_history_run _ _ _ _ Hl). cbn zeta. unfold history_controls.
    destruct l as [|m l]; [done|].
    case_bool_decide; [|done]. rewrite Hc, He.
    destruct (show_all_history s); by rewrite <- app_assoc.
Qed.

Lemma history_presenter_policy_witness :
  messages_to_show short_log false = (short_log, []) ∧
  (messages_to_show seven_messages false
     = (drop (length seven_messages - 6) seven_messages,
        ["Showing latest 3 Q&A pairs. Click 'Show All History' to see 1 earlier messages."]) ∧
   length (messages_to_show seven_messages false).1 = 6 ∧
   (messages_to_show seven_messages false).1 `suffix_of` seven_messages ∧
   (∀ l' : list message,
      6 < length l' →
      (messages_to_show l' false).2 = (messages_to_show seven_messages false).2 →
      length l' - 6 = length seven_messages - 6)) ∧
  messages_to_show seven_messages true = (seven_messages, []) ∧
  display_history sample_base
    (World (set_messages (Some seven_messages) empty_session) []) =
    (Return tt,
     World (set_messages (Some seven_messages) empty_session)
       ([] ++ history_controls (length seven_messages) false
           ++ (st_info <$> (messages_to_show seven_messages false).2)
           ++ (chat_event <$> (messages_to_show seven_messages false).1))).
Proof.
  destruct (history_presenter_policy short_log false) as (Hshort & _).
  destruct (history_presenter_policy seven_messages false) as (_ & Hlast & _ & Hshow).
  destruct (history_presenter_policy seven_messages true) as (_ & _ & Hall & _).
  split; [|split; [|split]].
  - apply Hshort. vm_compute. lia.
  - change "Showing latest 3 Q&A pairs. Click 'Show All History' to see 1 earlier messages."
      with ("Showing latest 3 Q&A pairs. Click 'Show All History' to see "
              +:+ pretty (length seven_messages - 6) +:+ " earlier messages.").
    apply Hlast; [vm_compute; lia|reflexivity].
  - apply Hall; [vm_compute; lia|reflexivity].
  - apply Hshow; reflexivity.
Defined.

Example seven_messages_collapsed :
  messages_to_show seven_messages false =
  ([ Message assistant "a1";
     Message user "q2"; Message assistant "a2";
     Message user "q3"; Message assistant "a3";
     Message user "q4" ],
   ["Showing latest 3 Q&A pairs. Click 'Show All History' to see 1 earlier messages."]).
Proof. vm_compute. reflexivity. Qed.

Example empty_log_placeholder :
  trace (display_history sample_base (World fresh_session [])).2
  = [st_info start_conversation].
Proof. reflexivity. Qed.

(** C2, as the code has it: the reset button empties the message log and
    reruns; the show-all toggle and the staged question are left as they
    were, so the toggle is off afterwards only if it was off before. *)
Theorem reset_clears_messages_only inp ep s t :
  (∀ j, clicked inp (main_question j) = false) →
  clicked inp reset_chat = true →
  let pass := render_main_content inp ep (World s t) in
  pass.1 = Rerun ∧
  messages (session pass.2) = Some [] ∧
  show_all_messages (session pass.2) = show_all_messages s ∧
  show_all_history (session pass.2) = show_all_history s ∧
  selected_question (session pass.2) = selected_question s.
Proof.
  intros Hq Hr pass. unfold pass.
  rewrite (render_main_content_reset _ _ _ _ Hq Hr). by expose_session s.
Qed.

Lemma reset_clears_messages_only_witness :
  let pass :=
    render_main_content (clicking sample_base reset_chat (Answers (Text "hello")))
      "rag-endpoint" (World expanded_session []) in
  pass.1 = Rerun ∧
  messages (session pass.2) = Some [] ∧
  show_all_messages (session pass.2) = show_all_messages expanded_session ∧
  show_all_history (session pass.2) = show_all_history expanded_session ∧
  selected_question (session pass.2) = selected_question expanded_session.
Proof.
  apply (reset_clears_messages_only
           (clicking sample_base reset_chat (Answers (Text "hello")))
           "rag-endpoint" expanded_session []).
  - reflexivity.
  - reflexivity.
Defined.

(** C2 as stated fails: resetting a session whose show-all toggle is on
    empties the log but leaves the toggle on. *)
Lemma reset_leaves_show_all_on :
  let after :=
    session (render_main_content
               (clicking sample_base reset_chat (Answers (Text "hello")))
               "rag-endpoint" (World expanded_session [])).2 in
  messages after = Some [] ∧ show_all_history after = true ∧
  ¬ (messages after = Some [] ∧ show_all_history after = false).
Proof. vm_compute. split_and!; [done|done|]. intros [_ ?]. discriminate. Qed.

Example reset_interaction_keeps_toggle :
  let after :=
    interact (clicking sample_base reset_chat (Answers (Text "hello"))) expanded_session in
  messages after = Some [] ∧ show_all_messages after = Some true.
Proof. vm_compute. done. Qed.

(** * Further properties of the script *)

(** ** Suggested questions *)

Lemma question_buttons_cons i n :
  question_buttons i (S n) = st_button (main_question i) :: question_buttons (S i) n.
Proof. reflexivity. Qed.

Lemma question_buttons_quiet i n :
  queries (question_buttons i n) = [] ∧ (st_chat_input ∉ question_buttons i n).
Proof.
  revert i. induction n as [|n IH]; intros i.
  - split; [done|apply not_elem_of_nil].
  - rewrite question_buttons_cons. destruct (IH (S i)) as [Hq Hn].
    split; [exact Hq|]. apply not_elem_of_cons. by split.
Qed.

Lemma suggested_question_buttons_first inp i before q after s t :
  (∀ k, k < length before → clicked inp (main_question (i + k)) = false) →
  clicked inp (main_question (i + length before)) = true →
  suggested_question_buttons inp i (before ++ q :: after) (World s t) =
    (Rerun, World (set_selected_question (Some q) s)
              (t ++ question_buttons i (S (length before)))).
Proof.
  revert i t. induction before as [|q0 before IH]; intros i t Hidle Hclick.
  - cbn [app length suggested_question_buttons] in *.
    rewrite Nat.add_0_r in Hclick. run. reflexivity.
  - cbn [app length suggested_question_buttons] in *.
    pose proof (Hidle 0 ltac:(lia)) as H0. rewrite Nat.add_0_r in H0.
    run. rewrite IH.
    + rewrite (question_buttons_cons i). by rewrite <- app_assoc.
    + intros k Hk. replace (S i + k) with (i + S k) by lia. apply Hidle. lia.
    + by replace (S i + length before) with (i + S (length before)) by lia.
Qed.

Lemma suggested_question_buttons_cases inp i qs s t :
  ∃ n,
    suggested_question_buttons inp i qs (World s t) =
      (Return tt, World s (t ++ question_buttons i n))
    ∨ ∃ q, q ∈ qs ∧
        suggested_question_buttons inp i qs (World s t) =
          (Rerun, World (set_selected_question (Some q) s) (t ++ question_buttons i n)).
Proof.
  revert i t. induction qs as [|q qs IH]; intros i t.
  - exists 0. left. cbn. run. unfold question_buttons. cbn. by rewrite app_nil_r.
  - cbn [suggested_question_buttons]. run.
    destruct (clicked inp (main_question i)) eqn:Hc; run.
    + exists 1. right. exists q. split; [apply list_elem_of_here|reflexivity].
    + destruct (IH (S i) (t ++ [st_button (main_question i)])) as (n & [Hr|(q' & Hin & Hr)]).
      * exists (S n). left. rewrite Hr, question_buttons_cons. by rewrite <- app_assoc.
      * exists (S n). right. exists q'. split; [by apply list_elem_of_further|].
        rewrite Hr, question_buttons_cons. by rewrite <- app_assoc.
Qed.

(** ** Whole passes *)

Lemma render_chat_interface_selected inp ep s t l :
  messages s = Some l →
  let s' := session (render_chat_interface inp ep (World s t)).2 in
  selected_question s' = selected_question s ∨ selected_question s' = None.
Proof.
  intros Hl. cbn zeta.
  destruct (handle_question_selection_cases inp s t)
    as (o1 & s1 & evs1 & Hh & Hm1 & _ & _ & Hcase).
  assert (Hshow : ∀ prompt, o1 = Return prompt → prompt = None ∨ prompt = Some "" →
    selected_question (session (render_chat_interface inp ep (World s t)).2)
    = selected_question s1).
  { intros prompt -> Hp.
    rewrite render_chat_interface_unfold, Hh, (process_prompt_skip _ _ _ _ Hp).
    destruct (display_history_session inp s1 (t ++ evs1) l)
      as (o & s' & evs & -> & _ & _ & Hs & _); [congruence|]. exact Hs. }
  destruct Hcase as [[-> Hs1]|[[-> ->]|(p & -> & -> & Hsrc)]].
  - rewrite render_chat_interface_unfold, Hh. by right.
  - left. apply (Hshow None); auto.
  - right. destruct (decide (p = "")) as [->|Hne].
    { rewrite (Hshow (Some "")); auto. }
    assert (Hp : (handle_question_selection inp (World s t)).1 = Return (Some p))
      by (by rewrite Hh).
    destruct (answer_of (query_endpoint inp ep (l ++ [Message user p]) 400%Z))
      as [a|] eqn:Ha.
    + rewrite (render_chat_interface_success _ _ _ _ _ _ _ Hl Hp Hne Ha).
      by expose_session s.
    + destruct (render_chat_interface_failure _ _ _ _ _ _ Hl Hp Hne Ha)
        as (o & s' & msg & evs & -> & _ & _ & Hs & _). exact Hs.
Qed.

(** Everything a pass of the page body can do to the session. *)
Lemma render_main_content_pass inp ep s t l :
  messages s = Some l →
  ∃ o s' evs l',
    render_main_content inp ep (World s t) = (o, World s' (t ++ evs)) ∧
    (o = Return tt ∨ o = Rerun) ∧
    messages s' = Some l' ∧ pass_effect ep l l' (queries evs) ∧
    (selected_question s' = selected_question s ∨ selected_question s' = None
     ∨ ∃ q, q ∈ get_suggested_questions ∧ selected_question s' = Some q).
Proof.
  intros Hl. unfold render_main_content. unfold bind at 1.
  destruct (suggested_question_buttons_cases inp 1 get_suggested_questions s t)
    as (n & [-> |(q & Hin & ->)]).
  2: { exists Rerun, (set_selected_question (Some q) s), (question_buttons 1 n), l.
       destruct (question_buttons_quiet 1 n) as [-> _].
       split_and!; auto.
       - constructor.
       - right; right. by exists q. }
  destruct (question_buttons_quiet 1 n) as [Hqb _].
  run. destruct (clicked inp reset_chat) eqn:Hreset; run.
  - eexists Rerun, _, _, []. rewrite <- app_assoc.
    split; [reflexivity|]. split_and!; auto.
    rewrite queries_app, Hqb. constructor.
  - match goal with
    | |- context [render_chat_interface inp ep (World s ?t1)] =>
        destruct (render_chat_interface_adds inp ep s t1 l Hl)
          as (o & s' & evs & added & Hr & Ho & Hm & _ & Hadd);
        pose proof (render_chat_interface_selected inp ep s t1 l Hl) as Hsel
    end.
    cbn zeta in Hsel. rewrite Hr in Hsel |- *. cbn [snd session] in Hsel.
    eexists o, s', _, (l ++ added). rewrite <- !app_assoc.
    split; [reflexivity|]. split_and!; auto.
    + rewrite !queries_app, Hqb. cbn.
      destruct Hadd as [[-> ->]|(p & Hne & _ & -> & [-> |[a ->]])];
        rewrite ?app_nil_r; by constructor.
    + destruct Hsel; auto.
Qed.

Lemma main_halts inp s t :
  environ inp !! "SERVING_ENDPOINT" = None ∨ environ inp !! "SERVING_ENDPOINT" = Some "" →
  main inp (World s t) =
    (Stop,
     World s (t ++ [st_error "⚠️ SERVING_ENDPOINT environment variable is not set. Please set it in app.yaml."])).
Proof.
  intros Henv. unfold main, validate_environment.
  destruct Henv as [-> | ->]; reflexivity.
Qed.

Lemma main_pass inp ep s t :
  environ inp !! "SERVING_ENDPOINT" = Some ep → ep ≠ "" →
  ∃ o s' evs l',
    main inp (World s t) = (o, World s' (t ++ evs)) ∧
    (o = Return tt ∨ o = Rerun) ∧
    messages s' = Some l' ∧ pass_effect ep (message_log s) l' (queries evs) ∧
    (selected_question s' = selected_question s ∨ selected_question s' = None
     ∨ ∃ q, q ∈ get_suggested_questions ∧ selected_question s' = Some q).
Proof.
  intros Henv Hne.
  destruct (main_run inp ep s t Henv Hne) as (evs0 & -> & Hq0 & _).
  destruct (render_main_content_pass inp ep (initialized s) (t ++ evs0)
              (message_log s) (initialized_messages s))
    as (o & s' & evs & l' & Hr & Ho & Hm & Heff & Hsel).
  rewrite initialized_selected_question in Hsel.
  unfold bind. rewrite Hr.
  destruct Ho as [-> | ->].
  - rewrite (render_sidebar_run _ _ _ _ l' Hm).
    eexists (Return tt), s', _, l'. rewrite <- !app_assoc.
    split; [reflexivity|]. split_and!; auto.
    rewrite !queries_app, Hq0. cbn. by rewrite app_nil_r.
  - eexists Rerun, s', _, l'. rewrite <- !app_assoc.
    split; [reflexivity|]. split_and!; auto.
    by rewrite !queries_app, Hq0.
Qed.

(** ** Start-up, safety and invariants of a pass *)

(** X1: without a configured endpoint ([SERVING_ENDPOINT] unset or empty) the
    script shows the configuration error and stops before anything else: the
    session state is not even initialized, no widget is rendered, no endpoint
    is called, and the interaction changes nothing. *)
Theorem missing_endpoint_halts inp s t :
  environ inp !! "SERVING_ENDPOINT" = None ∨ environ inp !! "SERVING_ENDPOINT" = Some "" →
  main inp (World s t) =
    (Stop,
     World s (t ++ [st_error "⚠️ SERVING_ENDPOINT environment variable is not set. Please set it in app.yaml."])) ∧
  interact inp s = s.
Proof.
  intros Henv. split; [by apply main_halts|].
  unfold interact. by rewrite (main_halts _ _ _ Henv).
Qed.

Lemma missing_endpoint_halts_witness :
  main unconfigured (World busy_session []) =
    (Stop,
     World busy_session ([] ++ [st_error "⚠️ SERVING_ENDPOINT environment variable is not set. Please set it in app.yaml."])) ∧
  interact unconfigured busy_session = busy_session.
Proof.
  apply (missing_endpoint_halts unconfigured busy_session []).
  left. reflexivity.
Defined.

(** X2: a pass makes at most one endpoint call, to the configured endpoint,
    and exactly when it appends a question to the log: the call carries the
    log with that question last and [max_tokens = 400].  Otherwise the log is
    unchanged or emptied and no call is made. *)
Theorem one_call_per_pass inp ep s t :
  environ inp !! "SERVING_ENDPOINT" = Some ep → ep ≠ "" →
  ∃ evs l',
    trace (main inp (World s t)).2 = t ++ evs ∧
    messages (session (main inp (World s t)).2) = Some l' ∧
    pass_effect ep (message_log s) l' (queries evs) ∧
    length (queries evs) ≤ 1.
Proof.
  intros Henv Hne.
  destruct (main_pass inp ep s t Henv Hne)
    as (o & s' & evs & l' & -> & _ & Hm & Heff & _).
  exists evs, l'. split_and!; auto.
  destruct Heff; cbn; lia.
Qed.

Lemma one_call_per_pass_witness :
  let inp := typing sample_base "And then?" (Fails (Exception "timeout")) in
  ∃ evs l',
    trace (main inp (World expanded_session [])).2 = [] ++ evs ∧
    messages (session (main inp (World expanded_session [])).2) = Some l' ∧
    pass_effect "rag-endpoint" (message_log expanded_session) l' (queries evs) ∧
    length (queries evs) ≤ 1.
Proof.
  apply (one_call_per_pass (typing sample_base "And then?" (Fails (Exception "timeout")))
           "rag-endpoint" expanded_session []).
  - reflexivity.
  - discriminate.
Defined.

(** X3: the script never ends in an uncaught exception, whatever the session
    state, the widgets and the endpoint do: a pass completes, reruns, or stops
    because the endpoint is not configured; and it stops only then. *)
Theorem main_never_raises inp s t :
  let o := (main inp (World s t)).1 in
  (o = Return tt ∨ o = Rerun ∨ o = Stop) ∧
  (o = Stop ↔
   environ inp !! "SERVING_ENDPOINT" = None ∨ environ inp !! "SERVING_ENDPOINT" = Some "").
Proof.
  cbn zeta. destruct (environ inp !! "SERVING_ENDPOINT") as [ep|] eqn:Henv.
  - destruct (decide (ep = "")) as [->|Hne].
    + rewrite main_halts by auto. cbn. split; [auto|]. split; auto.
    + destruct (main_pass inp ep s t Henv Hne) as (o & s' & evs & l' & -> & Ho & _).
      cbn. split; [tauto|]. split.
      * intros ->. destruct Ho; discriminate.
      * intros [?|?]; congruence.
  - rewrite main_halts by auto. cbn. split; [auto|]. split; auto.
Qed.

Lemma paired_from_app_user b l p rest :
  paired_from b (l ++ Message user p :: rest) ↔ paired_from b l ∧ paired_from true rest.
Proof.
  revert b. induction l as [|[[] c] l IH]; intros b; cbn.
  - tauto.
  - apply IH.
  - rewrite IH. tauto.
Qed.

Lemma pass_effect_paired ep l l' qs :
  pass_effect ep l l' qs → paired l → paired l'.
Proof.
  unfold paired. destruct 1; intros Hl; auto.
  - done.
  - apply paired_from_app_user. by split.
  - apply paired_from_app_user. split; [done|]. by cbn.
Qed.

(** One pass keeps the log paired and the staged question a suggestion. *)
Lemma main_invariant inp s t :
  paired (message_log s) → staged_suggestion s →
  paired (message_log (session (main inp (World s t)).2)) ∧
  staged_suggestion (session (main inp (World s t)).2).
Proof.
  intros Hl Hs.
  destruct (environ inp !! "SERVING_ENDPOINT") as [ep|] eqn:Henv.
  - destruct (decide (ep = "")) as [->|Hne]; [by rewrite main_halts by auto|].
    destruct (main_pass inp ep s t Henv Hne)
      as (o & s' & evs & l' & -> & _ & Hm & Heff & Hsel).
    cbn [snd session]. split.
    + unfold message_log at 1. rewrite Hm. cbn. by eapply pass_effect_paired.
    + unfold staged_suggestion in *.
      destruct Hsel as [-> |[-> |(q & Hq & ->)]]; auto.
  - by rewrite main_halts by auto.
Qed.

(** X4: whatever the user does, in any order, and whatever the endpoint
    answers, the message log never holds an assistant entry that does not
    directly follow a user entry, and a staged question is always one of the
    suggested questions. *)
Theorem interactions_keep_log_paired inps s :
  paired (message_log s) → staged_suggestion s →
  paired (message_log (interactions inps s)) ∧
  staged_suggestion (interactions inps s).
Proof.
  revert s. induction inps as [|inp inps IH]; intros s Hl Hs; [done|].
  cbn [interactions foldl]. fold (interactions inps (interact inp s)).
  assert (Hstep : paired (message_log (interact inp s)) ∧
                  staged_suggestion (interact inp s)).
  { unfold interact.
    destruct (main_invariant inp s [] Hl Hs) as [Hl1 Hs1].
    destruct (main inp (World s [])) as [[[]|e| |] w]; auto.
    cbn [snd] in Hl1, Hs1. by apply main_invariant. }
  destruct Hstep. by apply IH.
Qed.

Lemma interactions_keep_log_paired_witness :
  paired (message_log (interactions sample_interactions empty_session)) ∧
  staged_suggestion (interactions sample_interactions empty_session).
Proof.
  apply (interactions_keep_log_paired sample_interactions empty_session).
  - exact I.
  - exact I.
Defined.

Example sample_interactions_result :
  let s := interactions sample_interactions empty_session in
  messages s =
    Some [ Message user "How can I ingest data into Databricks using Lakeflow?";
           Message assistant "By connectors." ] ∧
  selected_question s = None.
Proof. vm_compute. done. Qed.

Lemma count_role_app r l1 l2 :
  count_role r (l1 ++ l2) = count_role r l1 + count_role r l2.
Proof. unfold count_role. by rewrite filter_app, length_app. Qed.

Lemma transcript_cons t ts : transcript (t :: ts) = turn_messages t ++ transcript ts.
Proof. reflexivity. Qed.

(** X5: in any conversation, failed calls included, every turn adds exactly
    one user entry, and an assistant entry exactly when its call is answered;
    a question whose call failed stays in the log, so a later call carries it
    too. *)
Theorem conversation_transcript base ep ts s0 :
  environ base !! "SERVING_ENDPOINT" = Some ep → ep ≠ "" →
  message_log s0 = [] → selected_question s0 = None →
  Forall (λ t, is_Some (prompt_of t)) ts →
  let l := message_log (play base ts s0) in
  l = transcript ts ∧
  count_role user l = length ts ∧
  count_role assistant l = answered_turns ts ∧
  length l = length ts + answered_turns ts.
Proof.
  intros Henv Hne Hlog Hsel Hts l.
  assert (Hl : l = transcript ts).
  { unfold l. destruct (play_messages base ep ts s0) as [-> _]; auto.
    by rewrite Hlog. }
  rewrite Hl. clear Hl l. split; [done|].
  induction Hts as [|t ts [p Hp] _ (IHu & IHa & IHl)]; [done|].
  rewrite transcript_cons, !count_role_app, length_app, IHu, IHa, IHl.
  unfold turn_messages, answered_turns. rewrite Hp, filter_cons.
  destruct (answer_of (result t)) as [a|] eqn:Ha.
  - rewrite decide_True by eauto.
    change (count_role user [Message user p; Message assistant a]) with 1.
    change (count_role assistant [Message user p; Message assistant a]) with 1.
    cbn [length]. fold (answered_turns ts). split_and!; lia.
  - rewrite decide_False by (by intros [? ?]).
    change (count_role user [Message user p]) with 1.
    change (count_role assistant [Message user p]) with 0.
    cbn [length]. fold (answered_turns ts). split_and!; lia.
Qed.

Lemma conversation_transcript_witness :
  let l := message_log (play sample_base mixed_turns empty_session) in
  l = transcript mixed_turns ∧
  count_role user l = length mixed_turns ∧
  count_role assistant l = answered_turns mixed_turns ∧
  length l = length mixed_turns + answered_turns mixed_turns.
Proof.
  apply (conversation_transcript sample_base "rag-endpoint" mixed_turns empty_session).
  - reflexivity.
  - discriminate.
  - reflexivity.
  - reflexivity.
  - repeat constructor; eexists; reflexivity.
Defined.

Example resend_after_failure :
  message_log (play sample_base mixed_turns empty_session) =
  [ Message user "one"; Message assistant "1";
    Message user "two";
    Message user "two"; Message assistant "2" ].
Proof. vm_compute. reflexivity. Qed.

(** ** Initialization and the page body's order of actions *)

(** X6: initializing the session state never fails, shows nothing and keeps
    what is there: an existing message log, the staged question and the
    show-all toggle are untouched, a missing log is created empty, and
    initializing again changes nothing. *)
Theorem initialization_keeps_session s t :
  let w := (initialize_session_state (World s t)).2 in
  (initialize_session_state (World s t)).1 = Return tt ∧
  trace w = t ∧
  messages (session w) = Some (message_log s) ∧
  selected_question (session w) = selected_question s ∧
  show_all_messages (session w) = show_all_messages s ∧
  (is_Some (visibility s) →
   visibility (session w) = visibility s ∧ disabled (session w) = disabled s) ∧
  (is_Some (visibility s) → is_Some (messages s) → session w = s) ∧
  initialize_session_state w = (Return tt, w).
Proof.
  cbn zeta. rewrite initialize_session_state_run. cbn [fst snd session trace].
  rewrite initialize_session_state_run, initialized_idempotent.
  split_and!; auto using initialized_messages, initialized_selected_question,
    initialized_show_all_messages.
  - intros [v Hv]. expose_session s. unfold initialized. cbn.
    by destruct messages0.
  - intros [v Hv] [l Hl]. by expose_session s.
Qed.

(** X7: of the suggestion buttons, rendered in order with keys counted from
    [i], the first one clicked stages its question and reruns the script: the
    later buttons are not rendered, and the message log is not touched.  When
    none is clicked all are rendered and the session is unchanged. *)
Theorem first_clicked_suggestion_is_staged inp i before q after s t :
  (∀ k, k < length before → clicked inp (main_question (i + k)) = false) →
  (clicked inp (main_question (i + length before)) = true →
   suggested_question_buttons inp i (before ++ q :: after) (World s t) =
     (Rerun, World (set_selected_question (Some q) s)
               (t ++ question_buttons i (S (length before))))) ∧
  ((∀ k, clicked inp (main_question k) = false) →
   suggested_question_buttons inp i (before ++ q :: after) (World s t) =
     (Return tt, World s (t ++ question_buttons i (length (before ++ q :: after))))).
Proof.
  intros Hbefore. split.
  - intros Hclick. by apply suggested_question_buttons_first.
  - intros Hidle. by apply suggested_question_buttons_idle.
Qed.

Lemma first_clicked_suggestion_is_staged_witness :
  suggested_question_buttons frantic 1 (["a"] ++ "b" :: ["c"; "d"])
    (World fresh_session []) =
  (Rerun, World (set_selected_question (Some "b") fresh_session)
            ([] ++ question_buttons 1 (S (length ["a"])))) ∧
  suggested_question_buttons sample_base 1 (["a"] ++ "b" :: ["c"; "d"])
    (World fresh_session []) =
  (Return tt, World fresh_session
                ([] ++ question_buttons 1 (length (["a"] ++ "b" :: ["c"; "d"])))).
Proof.
  split.
  - apply (first_clicked_suggestion_is_staged frantic 1 ["a"] "b" ["c"; "d"]
             fresh_session []).
    + intros k Hk. cbn in Hk. assert (k = 0) as -> by lia. reflexivity.
    + reflexivity.
  - apply (first_clicked_suggestion_is_staged sample_base 1 ["a"] "b" ["c"; "d"]
             fresh_session []).
    + reflexivity.
    + reflexivity.
Defined.

Lemma suggested_question_buttons_clicked inp i qs s t j :
  i ≤ j < i + length qs → clicked inp (main_question j) = true →
  ∃ q n,
    q ∈ qs ∧ n ≤ S (j - i) ∧
    suggested_question_buttons inp i qs (World s t) =
      (Rerun, World (set_selected_question (Some q) s) (t ++ question_buttons i n)).
Proof.
  revert i t. induction qs as [|q qs IH]; intros i t Hj Hclick; [cbn in Hj; lia|].
  cbn [suggested_question_buttons length] in *. run.
  destruct (clicked inp (main_question i)) eqn:Hc; run.
  - exists q, 1. split_and!; [apply list_elem_of_here|lia|reflexivity].
  - assert (j ≠ i) by congruence.
    destruct (IH (S i) (t ++ [st_button (main_question i)])) as (q' & n & Hin & Hn & ->);
      [lia|done|].
    exists q', (S n). split_and!; [by apply list_elem_of_further|lia|].
    rewrite question_buttons_cons. by rewrite <- app_assoc.
Qed.

(** X8: a click on a suggested question wins over everything else in the
    pass: the question is staged and the script reruns at once, so a reset
    click, a confirmation or a typed message of the same pass has no effect;
    the log is unchanged, no endpoint is called, and neither the reset button
    nor the chat input is rendered. *)
Theorem suggestion_click_preempts inp ep s t j :
  1 ≤ j ≤ 4 → clicked inp (main_question j) = true →
  ∃ q n,
    q ∈ get_suggested_questions ∧ n ≤ j ∧
    render_main_content inp ep (World s t) =
      (Rerun, World (set_selected_question (Some q) s) (t ++ question_buttons 1 n)).
Proof.
  intros Hj Hclick. unfold render_main_content. unfold bind at 1.
  destruct (suggested_question_buttons_clicked inp 1 get_suggested_questions s t j)
    as (q & n & Hin & Hn & ->); [cbn; lia|done|].
  exists q, n. split_and!; [done|lia|reflexivity].
Qed.

Lemma suggestion_click_preempts_witness :
  ∃ q n,
    q ∈ get_suggested_questions ∧ n ≤ 4 ∧
    render_main_content frantic "rag-endpoint" (World busy_session []) =
      (Rerun, World (set_selected_question (Some q) busy_session)
                ([] ++ question_buttons 1 n)).
Proof.
  apply (suggestion_click_preempts frantic "rag-endpoint" busy_session [] 4).
  - lia.
  - reflexivity.
Defined.

Example frantic_pass :
  render_main_content frantic "rag-endpoint" (World busy_session []) =
  (Rerun,
   World (set_selected_question
            (Some "How can I ingest data into Databricks using Lakeflow?") busy_session)
     [st_button (main_question 1); st_button (main_question 2)]).
Proof. vm_compute. reflexivity. Qed.

(** X9: when no suggestion is clicked, a reset click wins over a prompt of
    the same pass: the log is emptied and the script reruns; a confirmed or
    typed prompt is neither appended nor sent, and a staged question stays
    staged. *)
Theorem reset_preempts_prompt inp ep s t :
  environ inp !! "SERVING_ENDPOINT" = Some ep → ep ≠ "" →
  (∀ j, clicked inp (main_question j) = false) →
  clicked inp reset_chat = true →
  let pass := main inp (World s t) in
  pass.1 = Rerun ∧
  messages (session pass.2) = Some [] ∧
  selected_question (session pass.2) = selected_question s ∧
  queries (trace pass.2) = queries t ∧
  (st_chat_input ∈ trace pass.2 → st_chat_input ∈ t).
Proof.
  intros Henv Hne Hq Hr pass. unfold pass.
  destruct (main_run inp ep s t Henv Hne) as (evs & -> & Hq0 & Hn0).
  unfold bind. rewrite (render_main_content_reset _ _ _ _ Hq Hr).
  cbn [fst snd session trace messages set_messages selected_question].
  destruct (question_buttons_quiet 1 4) as [Hqb Hnb].
  split_and!; auto using initialized_selected_question.
  - rewrite !queries_app, Hq0, Hqb. cbn. by rewrite !app_nil_r.
  - rewrite !elem_of_app. intros [[?|?]|[?|Hin]]; auto; try done.
    apply list_elem_of_singleton in Hin. discriminate.
Qed.

Lemma reset_preempts_prompt_witness :
  let pass := main reset_and_prompt (World busy_session []) in
  pass.1 = Rerun ∧
  messages (session pass.2) = Some [] ∧
  selected_question (session pass.2) = selected_question busy_session ∧
  queries (trace pass.2) = queries [] ∧
  (st_chat_input ∈ trace pass.2 → st_chat_input ∈ []).
Proof.
  apply (reset_preempts_prompt reset_and_prompt "rag-endpoint" busy_session []).
  - reflexivity.
  - discriminate.
  - reflexivity.
  - reflexivity.
Defined.

(** ** What a pass displays *)

Lemma rendered_app a b : rendered (a ++ b) = rendered a ++ rendered b.
Proof.
  induction a as [|e a IH]; [reflexivity|].
  destruct e; cbn; rewrite ?IH; reflexivity.
Qed.

Lemma errors_shown_app a b : errors_shown (a ++ b) = errors_shown a ++ errors_shown b.
Proof.
  induction a as [|e a IH]; [reflexivity|].
  destruct e; cbn; rewrite ?IH; reflexivity.
Qed.

Lemma errors_logged_app a b : errors_logged (a ++ b) = errors_logged a ++ errors_logged b.
Proof.
  induction a as [|e a IH]; [reflexivity|].
  destruct e; cbn; rewrite ?IH; reflexivity.
Qed.

Lemma buttons_app a b : buttons (a ++ b) = buttons a ++ buttons b.
Proof.
  induction a as [|e a IH]; [reflexivity|].
  destruct e; cbn; rewrite ?IH; reflexivity.
Qed.

Lemma rendered_chat l : rendered (chat_event <$> l) = l.
Proof. induction l as [|[r c] l IH]; [done|]. cbn. by rewrite IH. Qed.

Lemma chat_quiet l :
  errors_shown (chat_event <$> l) = [] ∧ errors_logged (chat_event <$> l) = [] ∧
  buttons (chat_event <$> l) = [].
Proof. induction l as [|m l IH]; [done|]. exact IH. Qed.

Lemma info_quiet l :
  rendered (st_info <$> l) = [] ∧ errors_shown (st_info <$> l) = [] ∧
  errors_logged (st_info <$> l) = [] ∧ buttons (st_info <$> l) = [].
Proof. induction l as [|m l IH]; [done|]. exact IH. Qed.

Lemma history_controls_quiet n b :
  rendered (history_controls n b) = [] ∧ errors_shown (history_controls n b) = [] ∧
  errors_logged (history_controls n b) = [] ∧ queries (history_controls n b) = [].
Proof. unfold history_controls. by case_bool_decide. Qed.

(** The presenter shows a suffix of the log that ends with its newest entry. *)
Lemma messages_to_show_suffix l b :
  let shown := (messages_to_show l b).1 in
  shown `suffix_of` l ∧
  length shown = (if b then length l else length l `min` 6) ∧
  last shown = last l.
Proof.
  cbn zeta. unfold messages_to_show, last_six.
  destruct b; cbn [orb fst].
  { split_and!; done. }
  case_bool_decide as Hlen; cbn [fst].
  - split_and!; [done|lia|done].
  - split_and!; [apply suffix_drop|rewrite length_drop; lia|].
    rewrite !last_lookup, lookup_drop, length_drop. f_equal. lia.
Qed.

(** The display of a log that is not empty, when no toggle is clicked. *)
Lemma display_history_quiet inp s t l :
  messages s = Some l → l ≠ [] →
  clicked inp collapse_messages = false → clicked inp expand_messages = false →
  let shown := messages_to_show l (show_all_history s) in
  display_history inp (World s t) =
    (Return tt,
     World s (t ++ history_controls (length l) (show_all_history s)
                ++ (st_info <$> shown.2) ++ (chat_event <$> shown.1))).
Proof.
  intros Hl Hne Hc He. rewrite (display_history_run _ _ _ _ Hl). cbn zeta.
  unfold history_controls. destruct l as [|m l]; [done|].
  case_bool_decide; [|done]. rewrite Hc, He.
  destruct (show_all_history s); by rewrite <- app_assoc.
Qed.

(** Resolving the prompt displays no message and reports no error. *)
Lemma handle_question_selection_quiet inp s t :
  ∃ o s1 evs,
    handle_question_selection inp (World s t) = (o, World s1 (t ++ evs)) ∧
    rendered evs = [] ∧ errors_shown evs = [] ∧ errors_logged evs = [].
Proof.
  rewrite handle_question_selection_run.
  destruct (selected_question s) as [q|]; cbn zeta.
  - destruct (clicked inp use_question); [|destruct (clicked inp clear_question)];
      rewrite <- ?app_assoc; eexists _, _, _; (split; [reflexivity|]); done.
  - eexists _, _, _. split; [reflexivity|]. done.
Qed.

Lemma display_history_expand inp s t l :
  messages s = Some l → 6 < length l → show_all_history s = false →
  clicked inp expand_messages = true →
  display_history inp (World s t) =
    (Rerun, World (set_show_all_messages (Some true) s)
              (t ++ [st_button expand_messages])).
Proof.
  intros Hl Hlen Hoff He. rewrite (display_history_run _ _ _ _ Hl). cbn zeta.
  destruct l as [|m l]; [cbn in Hlen; lia|].
  by rewrite (bool_decide_eq_true_2 _ Hlen), Hoff, He.
Qed.

Lemma display_history_collapse inp s t l :
  messages s = Some l → 6 < length l → show_all_history s = true →
  clicked inp collapse_messages = true →
  display_history inp (World s t) =
    (Rerun, World (set_show_all_messages (Some false) s)
              (t ++ [st_button collapse_messages])).
Proof.
  intros Hl Hlen Hon Hc. rewrite (display_history_run _ _ _ _ Hl). cbn zeta.
  destruct l as [|m l]; [cbn in Hlen; lia|].
  by rewrite (bool_decide_eq_true_2 _ Hlen), Hon, Hc.
Qed.

(** X10: with more than 6 messages the history toggle is a round trip.  A
    click on "Show All History" turns the toggle on and reruns without
    displaying anything; the next display shows the whole log.  A click on
    "Show Recent Only" turns it off again the same way, and the next display
    shows the last 6.  Neither click touches the log or the staged question. *)
Theorem history_toggle_round_trip inp_expand inp_collapse inp s t l :
  messages s = Some l → 6 < length l → show_all_history s = false →
  clicked inp_expand expand_messages = true →
  clicked inp_collapse collapse_messages = true →
  clicked inp collapse_messages = false → clicked inp expand_messages = false →
  let expanded := display_history inp_expand (World s t) in
  let collapsed := display_history inp_collapse expanded.2 in
  expanded.1 = Rerun ∧
  session expanded.2 = set_show_all_messages (Some true) s ∧
  rendered (trace expanded.2) = rendered t ∧
  rendered (trace (display_history inp (World (session expanded.2) [])).2) = l ∧
  collapsed.1 = Rerun ∧
  session collapsed.2 = set_show_all_messages (Some false) s ∧
  rendered (trace (display_history inp (World (session collapsed.2) [])).2)
  = drop (length l - 6) l.
Proof.
  intros Hl Hlen Hoff He Hc Hic Hie. cbn zeta.
  assert (Hne : l ≠ []) by (intros ->; cbn in Hlen; lia).
  rewrite (display_history_expand _ _ _ _ Hl Hlen Hoff He).
  cbn [fst snd session trace].
  rewrite (display_history_collapse inp_collapse _ _ l);
    [|by expose_session s|done|by expose_session s|done].
  cbn [fst snd session trace].
  rewrite !(display_history_quiet inp _ [] l) by (by expose_session s).
  cbn [snd trace].
  replace (show_all_history (set_show_all_messages (Some true) s)) with true
    by (by expose_session s).
  replace (show_all_history (set_show_all_messages (Some false)
             (set_show_all_messages (Some true) s))) with false
    by (by expose_session s).
  split_and!; try done.
  - rewrite rendered_app. cbn. by rewrite app_nil_r.
  - rewrite !rendered_app, rendered_chat.
    destruct (history_controls_quiet (length l) true) as (-> & _).
    destruct (info_quiet (messages_to_show l true).2) as (-> & _). done.
  - rewrite !rendered_app, rendered_chat.
    destruct (history_controls_quiet (length l) false) as (-> & _).
    destruct (info_quiet (messages_to_show l false).2) as (-> & _).
    unfold messages_to_show, last_six.
    by rewrite bool_decide_eq_false_2 by lia.
Qed.

Lemma history_toggle_round_trip_witness :
  let expanded := display_history expand_click (World collapsed_session []) in
  let collapsed := display_history collapse_click expanded.2 in
  expanded.1 = Rerun ∧
  session expanded.2 = set_show_all_messages (Some true) collapsed_session ∧
  rendered (trace expanded.2) = rendered [] ∧
  rendered (trace (display_history sample_base (World (session expanded.2) [])).2)
  = long_log ∧
  collapsed.1 = Rerun ∧
  session collapsed.2 = set_show_all_messages (Some false) collapsed_session ∧
  rendered (trace (display_history sample_base (World (session collapsed.2) [])).2)
  = drop (length long_log - 6) long_log.
Proof.
  apply (history_toggle_round_trip expand_click collapse_click sample_base
           collapsed_session [] long_log); try reflexivity.
  vm_compute. lia.
Defined.

(** X11: with at most 6 messages no history toggle is offered: the display
    renders no button, ignores toggle clicks and a toggle left on, changes
    nothing in the session and shows the whole log. *)
Theorem short_history_has_no_toggle inp s t l :
  messages s = Some l → length l ≤ 6 →
  ∃ evs,
    display_history inp (World s t) = (Return tt, World s (t ++ evs)) ∧
    buttons evs = [] ∧ rendered evs = l.
Proof.
  intros Hl Hlen. rewrite (display_history_run _ _ _ _ Hl). cbn zeta.
  destruct l as [|m l']; [by eexists|]. set (l := m :: l') in *.
  rewrite bool_decide_eq_false_2 by lia.
  eexists. split; [reflexivity|].
  assert (Hshown : messages_to_show l (show_all_history s) = (l, [])).
  { unfold messages_to_show.
    rewrite (bool_decide_eq_true_2 _ Hlen), orb_true_r.
    rewrite bool_decide_eq_false_2 by lia. by rewrite andb_false_r. }
  rewrite Hshown. cbn [fst snd fmap list_fmap app].
  split; [apply chat_quiet|apply rendered_chat].
Qed.

Lemma short_history_has_no_toggle_witness :
  ∃ evs,
    display_history expand_click
      (World (set_show_all_messages (Some true)
                (set_messages (Some short_log) empty_session)) []) =
    (Return tt,
     World (set_show_all_messages (Some true)
              (set_messages (Some short_log) empty_session)) ([] ++ evs)) ∧
    buttons evs = [] ∧ rendered evs = short_log.
Proof.
  apply (short_history_has_no_toggle expand_click
           (set_show_all_messages (Some true)
              (set_messages (Some short_log) empty_session)) [] short_log).
  - reflexivity.
  - vm_compute. lia.
Defined.

(** X12: whenever the history is displayed, the messages shown are a suffix
    of the log in log order, their number is the whole log with the toggle on
    and at most 6 with it off, and the newest message is always among them. *)
Theorem newest_message_is_displayed inp s t l :
  messages s = Some l →
  clicked inp collapse_messages = false → clicked inp expand_messages = false →
  ∃ evs,
    display_history inp (World s t) = (Return tt, World s (t ++ evs)) ∧
    rendered evs `suffix_of` l ∧
    length (rendered evs) = (if show_all_history s then length l else length l `min` 6) ∧
    last (rendered evs) = last l.
Proof.
  intros Hl Hc He.
  destruct (decide (l = [])) as [->|Hne].
  { rewrite (display_history_run _ _ _ _ Hl). cbn zeta. eexists.
    split; [reflexivity|]. cbn. by destruct (show_all_history s). }
  rewrite (display_history_quiet _ _ _ _ Hl Hne Hc He). cbn zeta.
  eexists. split; [reflexivity|].
  rewrite !rendered_app, rendered_chat.
  destruct (history_controls_quiet (length l) (show_all_history s)) as (-> & _).
  destruct (info_quiet (messages_to_show l (show_all_history s)).2) as (-> & _).
  cbn [app]. apply messages_to_show_suffix.
Qed.

Lemma newest_message_is_displayed_witness :
  ∃ evs,
    display_history sample_base (World collapsed_session []) =
      (Return tt, World collapsed_session ([] ++ evs)) ∧
    rendered evs `suffix_of` long_log ∧
    length (rendered evs) =
      (if show_all_history collapsed_session then length long_log
       else length long_log `min` 6) ∧
    last (rendered evs) = last long_log.
Proof.
  apply (newest_message_is_displayed sample_base collapsed_session [] long_log);
    reflexivity.
Defined.

(** ** Prompts: failure, success, absence *)

(** X13: a failed call is reported, not swallowed, and the pass goes on: the
    same text, "Error getting response from endpoint: " followed by the
    exception's text, is logged once and shown once with [st.error]; the
    history is then displayed with the unanswered question as its last
    message, and the pass completes without a rerun. *)
Theorem failed_call_is_reported inp ep s t l p e :
  messages s = Some l →
  (handle_question_selection inp (World s t)).1 = Return (Some p) →
  p ≠ "" →
  error_of (query_endpoint inp ep (l ++ [Message user p]) 400%Z) = Some e →
  clicked inp collapse_messages = false → clicked inp expand_messages = false →
  ∃ s' evs,
    render_chat_interface inp ep (World s t) = (Return tt, World s' (t ++ evs)) ∧
    errors_logged evs = ["Error getting response from endpoint: " +:+ str e] ∧
    errors_shown evs = ["Error getting response from endpoint: " +:+ str e] ∧
    last (rendered evs) = Some (Message user p).
Proof.
  intros Hl Hp Hne He Hc Hx.
  destruct (handle_question_selection_quiet inp s t)
    as (o1 & s1 & evs1 & Hh & Hr1 & Hs1 & Hl1).
  destruct (handle_question_selection_prompt _ _ _ _ Hp) as (evs1' & Hh' & _).
  rewrite Hh in Hh'. injection Hh' as -> -> Hevs.
  rewrite render_chat_interface_unfold, Hh.
  rewrite (process_prompt_run _ _ _ _ _ l); [|by expose_session s|done].
  cbn zeta.
  assert (Hsent : l ++ [Message user p] ≠ []) by (by destruct l).
  set (msg := "Error getting response from endpoint: " +:+ str e).
  assert (Hfail :
    match query_endpoint inp ep (l ++ [Message user p]) 400%Z with
    | Answers (Text a) => False
    | Answers (Structured fields) => False
    | Answers (Malformed ty) =>
        e = Exception ("'" +:+ ty +:+ "' object has no attribute 'get'")
    | Fails e' => e = e'
    end).
  { destruct (query_endpoint inp ep _ _) as [[?|?|?]|?]; cbn in He; by simplify_eq. }
  destruct (query_endpoint inp ep _ _) as [[a|fields|ty]|e']; try done; subst e.
  all: rewrite display_history_quiet with (l := l ++ [Message user p]);
    [|by expose_session s|done|done|done].
  all: cbn zeta; eexists _, _; rewrite <- !app_assoc; (split; [reflexivity|]).
  all: match goal with
       | |- context [messages_to_show ?l0 ?b] =>
           destruct (info_quiet (messages_to_show l0 b).2) as (Hi1 & Hi2 & Hi3 & _);
           destruct (chat_quiet (messages_to_show l0 b).1) as (Hc1 & Hc2 & _);
           destruct (messages_to_show_suffix l0 b) as (_ & _ & Hlast);
           destruct (history_controls_quiet (length l0) b) as (Hk1 & Hk2 & Hk3 & _)
       end.
  all: rewrite !errors_logged_app, !errors_shown_app, !rendered_app, rendered_chat,
         Hl1, Hs1, Hr1, Hi1, Hi2, Hi3, Hc1, Hc2, Hk1, Hk2, Hk3.
  all: cbn zeta in Hlast;
    cbn [app errors_logged errors_shown rendered];
    rewrite Hlast, last_snoc; done.
Qed.

Lemma failed_call_is_reported_witness :
  let inp := typing sample_base "And then?" (Answers (Malformed "NoneType")) in
  ∃ s' evs,
    render_chat_interface inp "rag-endpoint" (World collapsed_session []) =
      (Return tt, World s' ([] ++ evs)) ∧
    errors_logged evs =
      ["Error getting response from endpoint: " +:+
       str (Exception "'NoneType' object has no attribute 'get'")] ∧
    errors_shown evs =
      ["Error getting response from endpoint: " +:+
       str (Exception "'NoneType' object has no attribute 'get'")] ∧
    last (rendered evs) = Some (Message user "And then?").
Proof.
  apply (failed_call_is_reported
           (typing sample_base "And then?" (Answers (Malformed "NoneType")))
           "rag-endpoint" collapsed_session [] long_log "And then?"
           (Exception "'NoneType' object has no attribute 'get'"));
    try reflexivity.
  discriminate.
Defined.

Lemma messages_to_show_keeps_pair l x y b :
  ∃ front, (messages_to_show (l ++ [x; y]) b).1 = front ++ [x; y].
Proof.
  unfold messages_to_show, last_six.
  destruct (b || bool_decide (length (l ++ [x; y]) ≤ 6)) eqn:Hb; cbn [fst].
  - by exists l.
  - apply orb_false_iff in Hb as [_ Hlen]. apply bool_decide_eq_false in Hlen.
    rewrite length_app in Hlen |- *. cbn [length] in *.
    exists (drop (length l + 2 - 6) l). rewrite drop_app_le by lia. done.
Qed.

(** X14: an answered prompt is displayed by the pass that follows.  The pass
    that gets the answer appends the pair and reruns without displaying a
    message or an error; the rerun pass makes no call, leaves the session as
    it is, and displays a history that ends with the question and its
    answer. *)
Theorem answer_is_displayed_after_rerun inp ep s t l p a :
  messages s = Some l →
  (handle_question_selection inp (World s t)).1 = Return (Some p) →
  p ≠ "" →
  answer_of (query_endpoint inp ep (l ++ [Message user p]) 400%Z) = Some a →
  let pass := render_chat_interface inp ep (World s t) in
  let next := render_chat_interface (idle inp) ep (World (session pass.2) []) in
  pass.1 = Rerun ∧
  rendered (trace pass.2) = rendered t ∧
  errors_shown (trace pass.2) = errors_shown t ∧
  next.1 = Return tt ∧
  session next.2 = session pass.2 ∧
  queries (trace next.2) = [] ∧
  ∃ front, rendered (trace next.2) = front ++ [Message user p; Message assistant a].
Proof.
  intros Hl Hp Hne Ha. cbn zeta.
  destruct (handle_question_selection_quiet inp s t)
    as (o1 & s1 & evs1 & Hh & Hr1 & Hs1 & _).
  rewrite (render_chat_interface_success _ _ _ _ _ _ _ Hl Hp Hne Ha), Hh.
  cbn [fst snd session trace].
  set (l' := l ++ [Message user p; Message assistant a]).
  set (s' := set_messages (Some l') (set_selected_question None s)).
  assert (Hl' : messages s' = Some l') by (by expose_session s).
  assert (Hne' : l' ≠ []) by (unfold l'; by destruct l).
  rewrite render_chat_interface_unfold, handle_question_selection_run.
  replace (selected_question s') with (@None string) by (by expose_session s).
  cbn [idle typed]. rewrite process_prompt_skip by auto.
  rewrite (display_history_quiet (idle inp) s' _ l' Hl' Hne') by done.
  cbn zeta. cbn [fst snd session trace app].
  destruct (history_controls_quiet (length l') (show_all_history s'))
    as (Hk1 & _ & _ & Hk4).
  destruct (info_quiet (messages_to_show l' (show_all_history s')).2) as (Hi1 & _).
  destruct (rendered_events (messages_to_show l' (show_all_history s')).2
              (messages_to_show l' (show_all_history s')).1) as [Hq _].
  split_and!; try done.
  - by rewrite !rendered_app, Hr1, !app_nil_r.
  - by rewrite !errors_shown_app, Hs1, !app_nil_r.
  - change (st_chat_input :: ?x) with ([st_chat_input] ++ x).
    by rewrite (queries_app [st_chat_input]), (queries_app (history_controls _ _)),
         Hk4, Hq.
  - change (st_chat_input :: ?x) with ([st_chat_input] ++ x).
    rewrite !rendered_app, Hk1, Hi1, rendered_chat. cbn [rendered app].
    apply messages_to_show_keeps_pair.
Qed.

Lemma answer_is_displayed_after_rerun_witness :
  let inp := typing sample_base "And then?" (Answers (Text "The end.")) in
  let pass := render_chat_interface inp "rag-endpoint" (World collapsed_session []) in
  let next :=
    render_chat_interface (idle inp) "rag-endpoint" (World (session pass.2) []) in
  pass.1 = Rerun ∧
  rendered (trace pass.2) = rendered [] ∧
  errors_shown (trace pass.2) = errors_shown [] ∧
  next.1 = Return tt ∧
  session next.2 = session pass.2 ∧
  queries (trace next.2) = [] ∧
  ∃ front, rendered (trace next.2)
           = front ++ [Message user "And then?"; Message assistant "The end."].
Proof.
  apply (answer_is_displayed_after_rerun
           (typing sample_base "And then?" (Answers (Text "The end.")))
           "rag-endpoint" collapsed_session [] long_log "And then?" "The end.");
    try reflexivity.
  discriminate.
Defined.

(** X15: a pass without a prompt, that is with nothing typed or an empty text
    typed, or with a staged question that is not confirmed, never calls the
    endpoint and leaves the message log as it is. *)
Theorem no_prompt_no_call inp ep s t l :
  messages s = Some l →
  (∀ p, (handle_question_selection inp (World s t)).1 = Return (Some p) → p = "") →
  let pass := render_chat_interface inp ep (World s t) in
  messages (session pass.2) = Some l ∧
  queries (trace pass.2) = queries t.
Proof.
  intros Hl Hnone. cbn zeta.
  destruct (render_chat_interface_adds inp ep s t l Hl)
    as (o & s' & evs & added & -> & _ & Hm & _ & [[-> Hq]|(p & Hne & Hp & _)]).
  - cbn [snd session trace]. rewrite app_nil_r in Hm.
    split; [done|]. by rewrite queries_app, Hq, app_nil_r.
  - by destruct Hne; apply Hnone.
Qed.

Lemma no_prompt_no_call_witness :
  let inp := typing sample_base "" (Answers (Text "unused")) in
  let pass := render_chat_interface inp "rag-endpoint" (World collapsed_session []) in
  messages (session pass.2) = Some long_log ∧
  queries (trace pass.2) = queries [].
Proof.
  apply (no_prompt_no_call (typing sample_base "" (Answers (Text "unused")))
           "rag-endpoint" collapsed_session [] long_log).
  - reflexivity.
  - intros p Hp. vm_compute in Hp. by injection Hp as <-.
Defined.

(** ** The sidebar, idle passes and staging through the whole script *)

(** X16: when a pass completes, the sidebar is the last thing it renders and
    reports the state at the end of the pass: the number of messages counts a
    question appended in this very pass, the e-mail address is the one
    [get_user_info] found (or its sentinel), and the endpoint is the
    configured one. *)
Theorem sidebar_reports_final_state inp ep s t :
  environ inp !! "SERVING_ENDPOINT" = Some ep → ep ≠ "" →
  (main inp (World s t)).1 = Return tt →
  ∃ s' evs l',
    main inp (World s t) =
      (Return tt,
       World s' (t ++ evs ++
                 sidebar_lines (length l') (user_email (context_headers inp)) ep)) ∧
    messages s' = Some l'.
Proof.
  intros Henv Hne Hdone.
  destruct (main_run inp ep s t Henv Hne) as (evs0 & Hmain & _).
  rewrite Hmain in Hdone |- *. unfold bind in *.
  destruct (render_main_content_pass inp ep (initialized s) (t ++ evs0)
              (message_log s) (initialized_messages s))
    as (o & s' & evs & l' & Hr & Ho & Hm & _).
  rewrite Hr in Hdone |- *.
  destruct Ho as [-> | ->]; [|done].
  rewrite (render_sidebar_run _ _ _ _ l' Hm).
  exists s', (evs0 ++ evs), l'. by rewrite <- !app_assoc.
Qed.

Lemma sidebar_reports_final_state_witness :
  ∃ s' evs l',
    main signed_in (World collapsed_session []) =
      (Return tt,
       World s' ([] ++ evs ++
                 sidebar_lines (length l')
                   (user_email (context_headers signed_in)) "rag-endpoint")) ∧
    messages s' = Some l'.
Proof.
  apply (sidebar_reports_final_state signed_in "rag-endpoint" collapsed_session []).
  - reflexivity.
  - discriminate.
  - reflexivity.
Defined.

Example sidebar_after_failed_call :
  take 4 (reverse (trace (main signed_in (World collapsed_session [])).2)) =
  [ st_write "Endpoint: rag-endpoint";
    st_write "📧 ada@example.com";
    st_write "**Status:** Active";
    st_write "**Messages:** 9" ].
Proof. vm_compute. reflexivity. Qed.

Lemma pass_effect_same ep l qs : pass_effect ep l l qs → qs = [].
Proof.
  intros H. remember l as l' eqn:Heq in H at 2.
  destruct H as [| |p Hp|p a Hp]; auto.
  - apply (f_equal length) in Heq. rewrite length_app in Heq. cbn in Heq. lia.
  - apply (f_equal length) in Heq. rewrite length_app in Heq. cbn in Heq. lia.
Qed.

(** X17: a pass without input (the pass after a rerun, or a page reload)
    never reruns and calls no endpoint; it leaves an initialized session
    exactly as it is, and in any session it changes at most the defaults that
    initialization fills in. *)
Theorem idle_pass_changes_nothing inp ep s t :
  environ inp !! "SERVING_ENDPOINT" = Some ep → ep ≠ "" →
  let pass := main (idle inp) (World s t) in
  pass.1 = Return tt ∧
  session pass.2 = initialized s ∧
  (is_Some (visibility s) → is_Some (messages s) → session pass.2 = s) ∧
  queries (trace pass.2) = queries t ∧
  interact (idle inp) (interact (idle inp) s) = interact (idle inp) s.
Proof.
  intros Henv Hne. cbn zeta.
  assert (Hidle : ∀ s0, interact (idle inp) s0 = initialized s0).
  { intros s0. unfold interact.
    destruct (main_idle inp ep s0 [] Henv Hne) as (t' & ->). done. }
  destruct (main_idle inp ep s t Henv Hne) as (t' & Hmain).
  destruct (main_pass (idle inp) ep s t Henv Hne)
    as (o & s' & evs & l' & Hpass & _ & Hm & Heff & _).
  rewrite Hmain in Hpass. injection Hpass as <- <- ->.
  rewrite initialized_messages in Hm. injection Hm as <-.
  apply pass_effect_same in Heff.
  rewrite Hmain. cbn [fst snd session trace]. split_and!; auto.
  - intros [v Hv] [l Hl]. by expose_session s.
  - by rewrite queries_app, Heff, app_nil_r.
  - by rewrite !Hidle, initialized_idempotent.
Qed.

Lemma idle_pass_changes_nothing_witness :
  let pass := main (idle sample_base) (World busy_session []) in
  pass.1 = Return tt ∧
  session pass.2 = initialized busy_session ∧
  (is_Some (visibility busy_session) → is_Some (messages busy_session) →
   session pass.2 = busy_session) ∧
  queries (trace pass.2) = queries [] ∧
  interact (idle sample_base) (interact (idle sample_base) busy_session)
  = interact (idle sample_base) busy_session.
Proof.
  apply (idle_pass_changes_nothing sample_base "rag-endpoint" busy_session []).
  - reflexivity.
  - discriminate.
Defined.

Lemma interact_stage_session base ep i q r s :
  environ base !! "SERVING_ENDPOINT" = Some ep → ep ≠ "" →
  get_suggested_questions !! i = Some q →
  interact (clicking base (main_question (S i)) r) s
  = initialized (set_selected_question (Some q) (initialized s)).
Proof.
  intros Henv Hne Hq. unfold interact.
  destruct (main_run (clicking base (main_question (S i)) r) ep s [] Henv Hne)
    as (evs & -> & _).
  unfold bind at 1. unfold render_main_content. unfold bind at 1.
  destruct (suggested_question_buttons_click base i r q (initialized s) ([] ++ evs) Hq)
    as (t' & ->).
  destruct (main_idle (clicking base (main_question (S i)) r) ep
              (set_selected_question (Some q) (initialized s)) [] Henv Hne)
    as (t'' & Hm).
  cbn [session]. by rewrite Hm.
Qed.

Lemma interact_clear_session base ep q r s :
  environ base !! "SERVING_ENDPOINT" = Some ep → ep ≠ "" →
  selected_question s = Some q →
  interact (clicking base clear_question r) s
  = initialized (set_selected_question None (initialized s)).
Proof.
  intros Henv Hne Hs. unfold interact.
  destruct (main_run (clicking base clear_question r) ep s [] Henv Hne)
    as (evs & -> & _).
  unfold bind at 1. rewrite render_main_content_chat by done.
  rewrite render_chat_interface_unfold, handle_question_selection_run.
  rewrite initialized_selected_question, Hs. cbn zeta. cbn [clicking clicked button_eqb].
  destruct (main_idle (clicking base clear_question r) ep
              (set_selected_question None (initialized s)) [] Henv Hne)
    as (t'' & Hm).
  cbn [session]. by rewrite Hm.
Qed.

(** X18: picking another suggestion replaces the staged question: after two
    picks the second question is the staged one, the message log is
    untouched, and the question stays staged over passes without input. *)
Theorem restaging_replaces_selection base ep i j qi qj r s :
  environ base !! "SERVING_ENDPOINT" = Some ep → ep ≠ "" →
  get_suggested_questions !! i = Some qi →
  get_suggested_questions !! j = Some qj →
  let first := interact (clicking base (main_question (S i)) r) s in
  let second := interact (clicking base (main_question (S j)) r) first in
  selected_question first = Some qi ∧
  selected_question second = Some qj ∧
  message_log second = message_log s ∧
  show_all_messages second = show_all_messages s ∧
  interact (idle base) second = second.
Proof.
  intros Henv Hne Hi Hj. cbn zeta.
  rewrite (interact_stage_session base ep j qj r _ Henv Hne Hj).
  rewrite (interact_stage_session base ep i qi r s Henv Hne Hi).
  assert (Hidle : ∀ s0, interact (idle base) s0 = initialized s0).
  { intros s0. unfold interact.
    destruct (main_idle base ep s0 [] Henv Hne) as (t' & ->). done. }
  rewrite Hidle. unfold message_log.
  expose_session s. unfold initialized.
  destruct visibility0, messages0; done.
Qed.

Lemma restaging_replaces_selection_witness :
  let first :=
    interact (clicking sample_base (main_question 1) (Answers (Text "unused")))
      collapsed_session in
  let second :=
    interact (clicking sample_base (main_question 4) (Answers (Text "unused"))) first in
  selected_question first = Some "What is Lakeflow and how does it work?" ∧
  selected_question second
  = Some "Explain the benefits of using Databricks for data processing" ∧
  message_log second = message_log collapsed_session ∧
  show_all_messages second = show_all_messages collapsed_session ∧
  interact (idle sample_base) second = second.
Proof.
  apply (restaging_replaces_selection sample_base "rag-endpoint" 0 3
           "What is Lakeflow and how does it work?"
           "Explain the benefits of using Databricks for data processing"
           (Answers (Text "unused")) collapsed_session).
  - reflexivity.
  - discriminate.
  - reflexivity.
  - reflexivity.
Defined.

(** X19: picking a suggestion and then clearing the selection leaves nothing
    staged and everything else as it was (with the defaults of initialization
    filled in), whatever was staged before; no message is added.  When
    nothing was staged before the pick it is a round trip: the session is
    back to what it was. *)
Theorem stage_then_clear_restores_session base ep i q r s :
  environ base !! "SERVING_ENDPOINT" = Some ep → ep ≠ "" →
  get_suggested_questions !! i = Some q →
  let staged := interact (clicking base (main_question (S i)) r) s in
  let cleared := interact (clicking base clear_question r) staged in
  selected_question staged = Some q ∧
  cleared = initialized (set_selected_question None s) ∧
  selected_question cleared = None ∧
  message_log cleared = message_log s ∧
  show_all_messages cleared = show_all_messages s ∧
  (selected_question s = None → cleared = initialized s) ∧
  (selected_question s = None → is_Some (visibility s) → is_Some (messages s) →
   cleared = s).
Proof.
  intros Henv Hne Hq. cbn zeta.
  rewrite (interact_stage_session base ep i q r s Henv Hne Hq).
  rewrite (interact_clear_session base ep q r _ Henv Hne).
  2: { by rewrite initialized_selected_question. }
  unfold message_log. expose_session s. unfold initialized.
  split_and!.
  - by destruct visibility0, messages0.
  - by destruct visibility0, messages0.
  - by destruct visibility0, messages0.
  - by destruct visibility0, messages0.
  - by destruct visibility0, messages0.
  - intros ->. by destruct visibility0, messages0.
  - by intros -> [? ->] [? ->].
Qed.

Lemma stage_then_clear_restores_session_witness :
  let staged :=
    interact (clicking sample_base (main_question 2) (Answers (Text "unused")))
      expanded_session in
  let cleared :=
    interact (clicking sample_base clear_question (Answers (Text "unused"))) staged in
  selected_question staged
  = Some "How can I ingest data into Databricks using Lakeflow?" ∧
  cleared = initialized (set_selected_question None expanded_session) ∧
  selected_question cleared = None ∧
  message_log cleared = message_log expanded_session ∧
  show_all_messages cleared = show_all_messages expanded_session ∧
  cleared = initialized expanded_session.
Proof.
  destruct (stage_then_clear_restores_session sample_base "rag-endpoint" 1
              "How can I ingest data into Databricks using Lakeflow?"
              (Answers (Text "unused")) expanded_session)
    as (H1 & H2 & H3 & H4 & H5 & H6 & _);
    [reflexivity|discriminate|reflexivity|].
  split_and!; auto.
Defined.

Example clear_after_restaging :
  let staged :=
    interact (clicking sample_base (main_question 2) (Answers (Text "unused")))
      busy_session in
  let cleared :=
    interact (clicking sample_base clear_question (Answers (Text "unused"))) staged in
  selected_question busy_session = Some "What is Lakeflow and how does it work?" ∧
  selected_question cleared = None ∧
  messages cleared = messages busy_session.
Proof. vm_compute. done. Qed.

Lemma initialization_keeps_session_witness :
  session (initialize_session_state (World (initialized busy_session) [])).2
  = initialized busy_session ∧
  messages (session (initialize_session_state (World empty_session [])).2) = Some [] ∧
  messages (session (initialize_session_state (World busy_session [])).2)
  = Some long_log.
Proof.
  destruct (initialization_keeps_session (initialized busy_session) [])
    as (_ & _ & _ & _ & _ & _ & Hsame & _).
  destruct (initialization_keeps_session empty_session []) as (_ & _ & Hempty & _).
  destruct (initialization_keeps_session busy_session []) as (_ & _ & Hkept & _).
  split_and!.
  - apply Hsame; eexists; reflexivity.
  - exact Hempty.
  - exact Hkept.
Defined.
